(** * Widget state logic of the Linear demo front end

    A shallow embedding of the per-widget state handling found in
    - [src/components/ui/card-data.tsx]            (selectable data cards),
    - [src/components/ui/editable-issue-table.tsx] (inline-edit issue table),
    - the Mermaid diagram widget and its schema, the module the registry
      imports as [@/components/ui/render-diagram],
    together with the properties the specification states about them.

    React state is modelled by explicit state passing: a handler is a
    function from the state captured by the render that created it to the
    state installed by the setters it calls.  An [await] splits a handler in
    two atomic segments, the part before the suspension and the continuation
    that runs when the promise settles. *)

From Stdlib Require Import ZArith List Ascii String Bool Lia.
From stdpp Require Import base option list strings pretty gmap.

#[local] Set Warnings "-register-all".

Local Open Scope Z_scope.
Local Open Scope string_scope.

(** ** JavaScript values shared by the widgets *)

(** Truthiness of a [string | null] value: [null] and the empty string are
    falsy, every other string is truthy. *)
Definition truthy (v : option string) : bool :=
  match v with
  | None => false
  | Some s => negb (String.eqb s "")
  end.

(** ** Selectable data cards: [card-data.tsx] *)

Module CardData.

(** [export type DataCardState = { selectedValues: string[] }] *)
Record DataCardState := { selectedValues : list string }.

(** The initial value handed to [useTamboComponentState]. *)
Definition initialState : DataCardState := {| selectedValues := [] |}.

(** [Array.prototype.indexOf]: index of the first strictly equal element,
    [-1] when there is none. *)
Fixpoint indexOf_from (l : list string) (value : string) (i : Z) : Z :=
  match l with
  | [] => -1
  | x :: l' => if String.eqb x value then i else indexOf_from l' value (i + 1)
  end.

Definition indexOf (l : list string) (value : string) : Z :=
  indexOf_from l value 0.

(** [Array.prototype.splice(start, deleteCount)] for [0 <= start], without
    inserted items: the array that remains. *)
Definition splice (l : list string) (start deleteCount : Z) : list string :=
  take (Z.to_nat start) l ++ drop (Z.to_nat start + Z.to_nat deleteCount) l.

(** [Array.prototype.push]. *)
Definition push (l : list string) (value : string) : list string :=
  l ++ [value].

(** [Array.prototype.includes] on strings. *)
Definition includes (l : list string) (value : string) : bool :=
  existsb (fun x => String.eqb x value) l.

(** [handleToggleCard]: the state after the call.  The hook may hand out
    no state at all ([!state]); the handler then returns without calling
    [setState]. *)
Definition handleToggleCard (state : option DataCardState) (value : string)
  : option DataCardState :=
  match state with
  | None => None
  | Some st =>
      let selectedValues0 := selectedValues st in
      let index := indexOf selectedValues0 value in
      if (-1 <? index)%Z
      then Some {| selectedValues := splice selectedValues0 index 1 |}
      else Some {| selectedValues := push selectedValues0 value |}
  end.

(** What the render reads: [state?.selectedValues.includes(card.value)]. *)
Definition isSelected (state : option DataCardState) (value : string) : bool :=
  match state with
  | None => false
  | Some st => includes (selectedValues st) value
  end.

(** States the widget reaches from its initial state by toggles alone. *)
Inductive reachable : DataCardState -> Prop :=
| reach_init : reachable initialState
| reach_toggle st v st' :
    reachable st -> handleToggleCard (Some st) v = Some st' -> reachable st'.

(** Removal of the first occurrence, the recursive reading of
    [indexOf] followed by [splice(index, 1)]. *)
Fixpoint remove_first (value : string) (l : list string) : list string :=
  match l with
  | [] => []
  | x :: l' => if String.eqb x value then l' else x :: remove_first value l'
  end.

(** The values other than [v], in order. *)
Definition others (v : string) (l : list string) : list string :=
  List.filter (fun x => negb (String.eqb x v)) l.

End CardData.

(** ** Editable issue table: [editable-issue-table.tsx] *)

Module IssueTable.

(** The values a buffered field can hold: [handleFieldChange] stores a
    string, [null] (assignee cleared) or a number (priority). *)
Inductive value :=
| VNull
| VStr (s : string)
| VNum (n : Z)
| VNaN.

(** One element of the [issues] prop, as the schema types it. *)
Record Issue := {
  id : string;
  identifier : option string;
  title : string;
  description : string;
  assigneeId : option string;
  status : string;
  priority : Z;
  lastUpdated : string
}.

(** [Partial<...>]: an object with some of the editable fields. *)
Abbreviation fields := (gmap string value).

(** Component state: [editState] (issue key -> overrides) and [isSaving]. *)
Record TableState := {
  editState : gmap string fields;
  isSaving : bool
}.

Definition initialState : TableState :=
  {| editState := ∅; isSaving := false |}.

(** [Number(value)] on the strings the priority [<select>] emits: unsigned
    decimal integer literals, on which it is exact.  JavaScript's [Number]
    also reads blanks, signs, fractions, exponents and hexadecimal
    literals; these are not modelled, every other string is sent to
    [VNaN]. *)
Fixpoint digits (s : string) (acc : Z) : option Z :=
  match s with
  | EmptyString => Some acc
  | String c s' =>
      let n := (Z.of_nat (nat_of_ascii c) - 48)%Z in
      if (0 <=? n)%Z && (n <=? 9)%Z then digits s' (10 * acc + n)%Z else None
  end.

Definition Number (s : string) : value :=
  match digits s 0 with
  | Some n => VNum n
  | None => VNaN
  end.

(** The stored value:
    [field === "priority" ? (value ? Number(value) : 0) : value]. *)
Definition storedValue (field : string) (v : option string) : value :=
  if String.eqb field "priority"
  then match v with
       | Some s => if truthy v then Number s else VNum 0
       | None => VNum 0
       end
  else match v with
       | Some s => VStr s
       | None => VNull
       end.

(** [handleFieldChange(id, field, value)]: a no-op while saving, otherwise
    [{...prev, [id]: {...prev[id], [field]: ...}}]. *)
Definition handleFieldChange (st : TableState) (id field : string)
    (v : option string) : TableState :=
  if isSaving st then st
  else {| editState :=
            <[ id := <[ field := storedValue field v ]>
                       (default ∅ (editState st !! id)) ]> (editState st);
          isSaving := isSaving st |}.

(** [changes]: the entries of [editState] whose field object is not empty,
    as [{ id, changes }] pairs.  [Object.entries] lists them in insertion
    order; here the list is the map's enumeration. *)
Definition changesOf (es : gmap string fields) : list (string * fields) :=
  List.filter (fun e => (0 <? Z.of_nat (size (default ∅ (es !! e.1))))%Z)
              (map_to_list es).

(** How the awaited [onSave(changes)] ends. *)
Inductive outcome :=
| Resolved
| Rejected (reason : string).

(** The state setters a handler calls, in call order. *)
Inductive setter :=
| SetIsSaving (b : bool)
| SetEditState (m : gmap string fields).

Definition applySetter (st : TableState) (a : setter) : TableState :=
  match a with
  | SetIsSaving b => {| editState := editState st; isSaving := b |}
  | SetEditState m => {| editState := m; isSaving := isSaving st |}
  end.

Definition run (log : list setter) (st : TableState) : TableState :=
  fold_left applySetter log st.

(** [handleSave] up to the [await]: the setters called and the argument
    [onSave] is invoked with, if it is invoked. *)
Definition handleSave_begin (st : TableState)
  : list setter * option (list (string * fields)) :=
  let changes := changesOf (editState st) in
  if (0 <? Z.of_nat (length changes))%Z
  then ([SetIsSaving true], Some changes)
  else ([], None).

(** [handleSave] after the [await]: [setEditState({})] on success only,
    [setIsSaving(false)] in the [finally] block either way; the handler's
    own promise rejects with the reason [onSave] rejected with. *)
Definition handleSave_settle (o : outcome) : list setter * outcome :=
  match o with
  | Resolved => ([SetEditState ∅; SetIsSaving false], Resolved)
  | Rejected r => ([SetIsSaving false], Rejected r)
  end.

(** A whole [handleSave] call against a given [onSave]. *)
Definition handleSave (st : TableState)
    (onSave : list (string * fields) -> outcome) : list setter * outcome :=
  match handleSave_begin st with
  | (log, Some changes) =>
      let (log', res) := handleSave_settle (onSave changes) in
      ((log ++ log')%list, res)
  | (log, None) => (log, Resolved)
  end.

(** *** The rendered rows *)

(** [issue.identifier ?? issue.id] *)
Definition rowKey (issue : Issue) : string :=
  default (id issue) (identifier issue).

(** [editState[key] || {}] *)
Definition edited (st : TableState) (issue : Issue) : fields :=
  default ∅ (editState st !! rowKey issue).

(** [a ?? b], with [None] for [undefined]. *)
Definition nullish (a : option value) : bool :=
  match a with
  | None | Some VNull => true
  | Some _ => false
  end.

Definition coalesce (a b : option value) : option value :=
  if nullish a then b else a.

Definition ofNullable (s : option string) : option value :=
  match s with
  | Some x => Some (VStr x)
  | None => Some VNull
  end.

(** The [value=] attribute of each control of a row. *)
Definition shownTitle (st : TableState) (issue : Issue) : option value :=
  coalesce (edited st issue !! "title") (Some (VStr (title issue))).

Definition shownDescription (st : TableState) (issue : Issue) : option value :=
  coalesce (edited st issue !! "description")
           (Some (VStr (description issue))).

Definition shownAssigneeId (st : TableState) (issue : Issue) : option value :=
  coalesce (coalesce (edited st issue !! "assigneeId")
                     (ofNullable (assigneeId issue)))
           (Some (VStr "")).

Definition shownStatus (st : TableState) (issue : Issue) : option value :=
  coalesce (edited st issue !! "status") (Some (VStr (status issue))).

Definition shownPriority (st : TableState) (issue : Issue) : option value :=
  coalesce (coalesce (edited st issue !! "priority")
                     (Some (VNum (priority issue))))
           (Some (VNum 0)).

(** The [onChange] handlers of a row; [e] carries [e.target.value]. *)
Inductive edit :=
| EditTitle (v : string)
| EditDescription (v : string)
| EditAssignee (v : string)
| EditStatus (v : string)
| EditPriority (v : string).

Definition onChange (issue : Issue) (e : edit) (st : TableState) : TableState :=
  match e with
  | EditTitle v => handleFieldChange st (rowKey issue) "title" (Some v)
  | EditDescription v =>
      handleFieldChange st (rowKey issue) "description" (Some v)
  | EditAssignee v =>
      handleFieldChange st (rowKey issue) "assigneeId"
                        (if truthy (Some v) then Some v else None)
  | EditStatus v => handleFieldChange st (rowKey issue) "status" (Some v)
  | EditPriority v => handleFieldChange st (rowKey issue) "priority" (Some v)
  end.

(** The Save button:
    [disabled={Object.keys(editState).length === 0 || isSaving}]. *)
Definition saveDisabled (st : TableState) : bool :=
  (Z.of_nat (size (editState st)) =? 0)%Z || isSaving st.

(** One user-visible transition of the widget for a fixed [issues] prop:
    an edit in a rendered row, a click on the enabled Save button, or the
    settling of the pending [onSave]. *)
Inductive step (issues : list Issue) : TableState -> TableState -> Prop :=
| step_edit st issue e :
    In issue issues -> step issues st (onChange issue e st)
| step_save st :
    saveDisabled st = false ->
    step issues st (run (handleSave_begin st).1 st)
| step_settle st o :
    isSaving st = true ->
    step issues st (run (handleSave_settle o).1 st).

Definition reachable (issues : list Issue) (st : TableState) : Prop :=
  rtc (step issues) initialState st.

(** *** Vocabulary of the properties *)

(** Two sample issues. *)
Definition issue1 : Issue :=
  {| id := "7f3c"; identifier := Some "LIN-1"; title := "Crash on login";
     description := "Stack trace attached"; assigneeId := Some "u1";
     status := "todo"; priority := 2; lastUpdated := "2025-01-01T00:00:00Z" |}.

Definition issue2 : Issue :=
  {| id := "9a1b"; identifier := None; title := "Typo";
     description := ""; assigneeId := None;
     status := "done"; priority := 0; lastUpdated := "2025-01-02T00:00:00Z" |}.

(** Every key of the buffer is the key of a rendered row. *)
Definition keysRendered (issues : list Issue) (st : TableState) : Prop :=
  forall k, is_Some (editState st !! k) ->
            exists issue, In issue issues /\ rowKey issue = k.

(** Only the assignee handler ever stores [null]. *)
Definition nullOnlyAssignee (st : TableState) : Prop :=
  forall k (f : gmap string value) field,
    editState st !! k = Some f -> f !! field = Some VNull ->
    field = "assigneeId".

End IssueTable.

(** ** Diagram widget: [RenderDiagram] *)

Module Diagram.

(** The React state of the component. *)
Record ReactState := {
  isLoading : bool;
  error : option string;
  isInitialized : bool;
  lastValidSvg : option string
}.

(** The live widget: its React state and the surface behind [diagramRef];
    [innerHTML = None] stands for [diagramRef.current === null]. *)
Record World := {
  state : ReactState;
  innerHTML : option string
}.

(** [useState] initial values, with a mounted, empty surface. *)
Definition initialWorld : World :=
  {| state := {| isLoading := true; error := None;
                 isInitialized := false; lastValidSvg := None |};
     innerHTML := Some "" |}.

(** What an effect closes over: the [diagram] prop, [isComplete] (derived
    from [thread.generationStage]) and the state of the render that
    scheduled it. *)
Record Closure := {
  diagram : string;
  isComplete : bool;
  seen : ReactState
}.

Definition capture (d : string) (complete : bool) (w : World) : Closure :=
  {| diagram := d; isComplete := complete; seen := state w |}.

(** What [mermaid.render] can reject with: an [Error] or any other value. *)
Inductive thrown :=
| ErrorObject (message : string)
| OtherValue.

(** How the awaited [mermaid.render(...)] ends. *)
Inductive renderResult :=
| Rendered (svg : string)
| Threw (err : thrown).

Definition setIsLoading (b : bool) (w : World) : World :=
  {| state := {| isLoading := b; error := error (state w);
                 isInitialized := isInitialized (state w);
                 lastValidSvg := lastValidSvg (state w) |};
     innerHTML := innerHTML w |}.

Definition setError (e : option string) (w : World) : World :=
  {| state := {| isLoading := isLoading (state w); error := e;
                 isInitialized := isInitialized (state w);
                 lastValidSvg := lastValidSvg (state w) |};
     innerHTML := innerHTML w |}.

Definition setIsInitialized (b : bool) (w : World) : World :=
  {| state := {| isLoading := isLoading (state w); error := error (state w);
                 isInitialized := b;
                 lastValidSvg := lastValidSvg (state w) |};
     innerHTML := innerHTML w |}.

Definition setLastValidSvg (s : option string) (w : World) : World :=
  {| state := {| isLoading := isLoading (state w); error := error (state w);
                 isInitialized := isInitialized (state w);
                 lastValidSvg := s |};
     innerHTML := innerHTML w |}.

(** [if (diagramRef.current) diagramRef.current.innerHTML = html] *)
Definition setInnerHTML (html : string) (w : World) : World :=
  match innerHTML w with
  | Some _ => {| state := state w; innerHTML := Some html |}
  | None => w
  end.

(** The argument of [setError] in the [catch] block. *)
Definition errorText (err : thrown) : string :=
  match err with
  | ErrorObject message => "Invalid diagram syntax: " ++ message
  | OtherValue => "Failed to render diagram"
  end.

(** [renderDiagram] up to [await mermaid.render(...)]. *)
Definition renderDiagram_begin (w : World) : World :=
  setInnerHTML "" (setError None (setIsLoading true w)).

(** [renderDiagram] from the settling of [mermaid.render] on: the rest of
    the [try] block or the [catch] block, then [finally]. *)
Definition renderDiagram_settle (c : Closure) (r : renderResult) (w : World)
  : World :=
  let w' :=
    match r with
    | Rendered svg =>
        let w1 := setLastValidSvg (Some svg) w in
        if isComplete c || negb (truthy (error (seen c)))
        then setInnerHTML svg w1
        else w1
    | Threw err =>
        let w1 := setError (Some (errorText err)) w in
        if isComplete c
        then setInnerHTML "" w1
        else match innerHTML w1, lastValidSvg (seen c) with
             | Some _, Some svg =>
                 if truthy (Some svg) then setInnerHTML svg w1 else w1
             | _, _ => w1
             end
    end in
  setIsLoading false w'.

(** What running an effect yields: the world after its synchronous part,
    the render it left pending, and the cleanup function it returned. *)
Record EffectResult := {
  after : World;
  spawned : option Closure;
  cleanup : option (World -> World)
}.

(** The first effect: [mermaid.initialize] once. *)
Definition initEffect (c : Closure) (w : World) : EffectResult :=
  {| after := if isInitialized (seen c) then w else setIsInitialized true w;
     spawned := None;
     cleanup := None |}.

(** The second effect: guard, then [renderDiagram()].  The callback has no
    [return] of a function on any path. *)
Definition renderEffect (c : Closure) (w : World) : EffectResult :=
  if negb (isInitialized (seen c))
     || String.eqb (diagram c) ""
     || match innerHTML w with None => true | Some _ => false end
  then {| after := w; spawned := None; cleanup := None |}
  else {| after := renderDiagram_begin w; spawned := Some c; cleanup := None |}.

(** The inline error panel: [{error && isComplete && (...)}]. *)
Definition showsError (complete : bool) (w : World) : bool :=
  truthy (error (state w)) && complete.

(** *** Several renders in flight *)

(** The widget together with the renders whose [mermaid.render] promise has
    not settled yet, oldest first, and the cleanup registered by the last
    run of the render effect. *)
Record System := {
  world : World;
  pending : list Closure;
  registered : option (World -> World)
}.

Definition initialSystem : System :=
  {| world := setIsInitialized true initialWorld;
     pending := [];
     registered := None |}.

(** A render commits with changed dependencies: React calls the cleanup of
    the previous run, if one was returned, then runs the effect with the
    new render's closure. *)
Definition runEffect (d : string) (complete : bool) (s : System) : System :=
  let w0 := match registered s with
            | Some f => f (world s)
            | None => world s
            end in
  let res := renderEffect (capture d complete w0) w0 in
  {| world := after res;
     pending := (pending s ++ match spawned res with
                              | Some c => [c]
                              | None => []
                              end)%list;
     registered := cleanup res |}.

(** The promise of the [i]-th pending render settles with [r]. *)
Definition settleAt (i : nat) (r : renderResult) (s : System) : option System :=
  match pending s !! i with
  | Some c => Some {| world := renderDiagram_settle c r (world s);
                      pending := delete i (pending s);
                      registered := registered s |}
  | None => None
  end.

(** *** Sample diagrams *)

Definition flowAB : string := "graph TD; A-->B;".
Definition flowBC : string := "graph TD; B-->C;".
Definition svgAB : string := "<svg>A-B</svg>".
Definition svgBC : string := "<svg>B-C</svg>".

(** The widget after the diagram prop went from [flowAB] to [flowBC]
    while the render of [flowAB] was still awaited. *)
Definition twoInFlight : System :=
  runEffect flowBC false (runEffect flowAB false initialSystem).

End Diagram.

(** ** Boundary schemas *)

Module Zod.

(** Payload values. *)
Inductive json :=
| JUndefined
| JNull
| JBool (b : bool)
| JNum (n : Z)
| JStr (s : string)
| JObj (members : list (string * json)).

(** The schema combinators [renderDiagramSchema] uses.  [.describe(...)]
    only attaches documentation and is left out. *)
Inductive schema :=
| ZString
| ZEnum (values : list string)
| ZOptional (inner : schema)
| ZDefault (inner : schema) (d : json)
| ZObject (shape : list (string * schema)).

(** Property read [o[key]]: the first binding of [key], [undefined] when
    there is none. *)
Fixpoint get (members : list (string * json)) (key : string) : json :=
  match members with
  | [] => JUndefined
  | (k, v) :: rest => if String.eqb k key then v else get rest key
  end.

Definition isUndefined (v : json) : bool :=
  match v with
  | JUndefined => true
  | _ => false
  end.

(** [schema.safeParse(input)]: [Some] of the parsed data, [None] when
    validation fails.  [ZOptional] lets [undefined] through, [ZDefault]
    replaces [undefined] by the default before parsing the inner schema,
    [ZObject] parses each key of its shape and drops unknown keys. *)
Fixpoint parse (s : schema) (input : json) : option json :=
  match s with
  | ZString =>
      match input with
      | JStr _ => Some input
      | _ => None
      end
  | ZEnum values =>
      match input with
      | JStr x => if existsb (String.eqb x) values then Some input else None
      | _ => None
      end
  | ZOptional inner =>
      match input with
      | JUndefined => Some JUndefined
      | _ => parse inner input
      end
  | ZDefault inner d =>
      match input with
      | JUndefined => parse inner d
      | _ => parse inner input
      end
  | ZObject shape =>
      match input with
      | JObj members =>
          let fix fields (sh : list (string * schema))
            : option (list (string * json)) :=
            match sh with
            | [] => Some []
            | (k, sk) :: rest =>
                match parse sk (get members k), fields rest with
                | Some v, Some out =>
                    Some (if isUndefined v then out else (k, v) :: out)
                | _, _ => None
                end
            end in
          match fields shape with
          | Some out => Some (JObj out)
          | None => None
          end
      | _ => None
      end
  end.

Definition themes : list string :=
  ["default"; "dark"; "forest"; "base"; "neutral"].

(** [renderDiagramSchema] *)
Definition renderDiagramSchema : schema :=
  ZObject
    [ ("diagram", ZString);
      ("title", ZOptional ZString);
      ("theme", ZDefault (ZOptional (ZEnum themes)) (JStr "default"));
      ("width", ZDefault (ZOptional ZString) (JStr "100%"));
      ("height", ZDefault (ZOptional ZString) (JStr "400px")) ].

(** *** Vocabulary of the properties *)

(** A string, or left out. *)
Definition optionalString (v : json) : Prop :=
  v = JUndefined \/ exists s, v = JStr s.

Definition optionalTheme (v : json) : Prop :=
  v = JUndefined \/ exists t, v = JStr t /\ In t themes.

(** What the schema asks of a payload object. *)
Definition wellFormed (members : list (string * json)) : Prop :=
  (exists d, get members "diagram" = JStr d) /\
  optionalString (get members "title") /\
  optionalTheme (get members "theme") /\
  optionalString (get members "width") /\
  optionalString (get members "height").

Definition orDefault (v : json) (d : string) : json :=
  if isUndefined v then JStr d else v.

Definition keep (k : string) (v : json) (out : list (string * json))
  : list (string * json) :=
  if isUndefined v then out else (k, v) :: out.

(** The parsed data of a well-formed payload: its [diagram], its [title]
    if it has one, and the three defaulted members. *)
Definition parsed (members : list (string * json)) : json :=
  JObj (keep "diagram" (get members "diagram")
          (keep "title" (get members "title")
             [ ("theme", orDefault (get members "theme") "default");
               ("width", orDefault (get members "width") "100%");
               ("height", orDefault (get members "height") "400px") ])).

End Zod.

(** ** Issue table: reading the buffer, the priority options *)

Module IssueTableExt.
Import IssueTable.

(** [editState[key]?.[field]]: the buffered override of one field of one
    row, [None] when there is none. *)
Definition override (st : TableState) (key field : string) : option value :=
  editState st !! key ≫= (fun f : gmap string value => f !! field).

(** The [<option value={n}>label</option>] children of the priority
    select, with the [value] string the DOM hands to [onChange]. *)
Definition priorityOptions : list (string * string) :=
  [ ("0", "No priority"); ("1", "Urgent"); ("2", "High");
    ("3", "Normal"); ("4", "Low") ].

(** The field an [onChange] handler writes and the value it passes to
    [handleFieldChange]. *)
Definition editField (e : edit) : string :=
  match e with
  | EditTitle _ => "title"
  | EditDescription _ => "description"
  | EditAssignee _ => "assigneeId"
  | EditStatus _ => "status"
  | EditPriority _ => "priority"
  end.

Definition editArgument (e : edit) : option string :=
  match e with
  | EditTitle v | EditDescription v | EditStatus v | EditPriority v => Some v
  | EditAssignee v => if truthy (Some v) then Some v else None
  end.


(** The kind of value each field of the buffer holds: a string under
    title, description and status, a non-empty string or [null] under
    assigneeId, a number under priority. *)
Definition declaredType (field : string) (v : value) : Prop :=
  (field = "title" \/ field = "description" \/ field = "status") /\
  (exists s, v = VStr s) \/
  field = "assigneeId" /\ (v = VNull \/ exists s, v = VStr s /\ s <> "") \/
  field = "priority" /\ (v = VNaN \/ exists n, v = VNum n).

(** The table across re-renders.  [useState] keeps [editState] and
    [isSaving] when the component is rendered again with another [issues]
    prop; [supplied] lists the props received so far, the current one
    first. *)
Inductive mounted : list (list Issue) -> TableState -> Prop :=
| mounted_first issues : mounted [issues] initialState
| mounted_edit issues supplied st issue e :
    mounted (issues :: supplied) st -> In issue issues ->
    mounted (issues :: supplied) (onChange issue e st)
| mounted_save supplied st :
    mounted supplied st -> saveDisabled st = false ->
    mounted supplied (run (handleSave_begin st).1 st)
| mounted_settle supplied st o :
    mounted supplied st -> isSaving st = true ->
    mounted supplied (run (handleSave_settle o).1 st)
| mounted_props issues' supplied st :
    mounted supplied st -> mounted (issues' :: supplied) st.

End IssueTableExt.

(** ** The save wrapper: [EditableIssueTableWithTamboSave] *)

Module TamboSave.
Import IssueTable.

(** One element of the array handed to [onSave]: the [id] and the entries
    of [changes] in [Object.entries] order. *)
Definition change : Type := string * list (string * value).

(** The line feed of ["\n"]. *)
Definition nl : string := String (ascii_of_nat 10) EmptyString.

(** [formatPriority]: [priorities[priority] || "Unknown"]. *)
Definition formatPriority (priority : value) : string :=
  match priority with
  | VNum 0 => "No priority"
  | VNum 1 => "Urgent"
  | VNum 2 => "High"
  | VNum 3 => "Normal"
  | VNum 4 => "Low"
  | _ => "Unknown"
  end.

(** [typeof value === "number"] *)
Definition isNumber (v : value) : bool :=
  match v with
  | VNum _ | VNaN => true
  | _ => false
  end.

(** Truthiness of a buffered value. *)
Definition valueTruthy (v : value) : bool :=
  match v with
  | VNull | VNaN => false
  | VStr s => negb (String.eqb s "")
  | VNum n => negb (n =? 0)%Z
  end.

(** The text a template literal inserts for a value; an integer is
    printed in decimal, as JavaScript prints those below 1e21. *)
Definition toString (v : value) : string :=
  match v with
  | VNull => "null"
  | VStr s => s
  | VNum n => pretty n
  | VNaN => "NaN"
  end.

(** [toUpperCase] on one character, for the ASCII letters (field names are
    ASCII). *)
Definition toUpperCase (c : ascii) : ascii :=
  let n := nat_of_ascii c in
  if ((97 <=? n)%nat && (n <=? 122)%nat)%bool then ascii_of_nat (n - 32) else c.

(** [field.charAt(0).toUpperCase() + field.slice(1)] *)
Definition fieldName (field : string) : string :=
  match field with
  | EmptyString => EmptyString
  | String c rest => String (toUpperCase c) rest
  end.

(** [displayValue] as it is inserted in the line. *)
Definition displayValue (field : string) (v : value) : string :=
  if (String.eqb field "priority" && isNumber v)%bool then formatPriority v
  else if String.eqb field "assigneeId"
       then (if valueTruthy v then toString v else "Unassigned")
       else toString v.

(** One pass of the inner [forEach]:
    [content += `- **${fieldName}**: ${displayValue}\n`]. *)
Definition appendField (content : string) (e : string * value) : string :=
  content ++ "- **" ++ fieldName e.1 ++ "**: " ++ displayValue e.1 e.2 ++ nl.

(** The outer [forEach], with its [index] and [changes.length]. *)
Fixpoint forEachChange (changes : list change) (index len : nat)
    (content : string) : string :=
  match changes with
  | [] => content
  | c :: rest =>
      let content1 := content ++ "### Issue " ++ c.1 ++ nl ++ nl in
      let content2 :=
        if (0 <? Z.of_nat (length c.2))%Z
        then fold_left appendField c.2 content1
        else content1 in
      let content3 :=
        if (Z.of_nat index <? Z.of_nat len - 1)%Z
        then content2 ++ nl
        else content2 in
      forEachChange rest (S index) len content3
  end.

(** The wrapper's [handleSave]: the [content] it passes to
    [sendThreadMessage]. *)
Definition handleSave (changes : list change) : string :=
  let content := "## Linear Issue Updates" ++ nl ++ nl in
  let content :=
    content ++ "Please update the following " ++ pretty (length changes)
    ++ " issue" ++ (if (1 <? Z.of_nat (length changes))%Z then "s" else "")
    ++ " in Linear:" ++ nl ++ nl in
  forEachChange changes 0 (length changes) content.

(** The array the table hands over: each buffered field object as its
    entries. *)
Definition toEntries (changes : list (string * gmap string value)) : list change :=
  List.map (fun c => (c.1, map_to_list c.2)) changes.

(** *** The message, declaratively *)

Definition header (n : nat) : string :=
  "## Linear Issue Updates" ++ nl ++ nl
  ++ "Please update the following " ++ pretty n ++ " issue"
  ++ (if (1 <? Z.of_nat n)%Z then "s" else "") ++ " in Linear:" ++ nl ++ nl.

Definition fieldLine (e : string * value) : string :=
  "- **" ++ fieldName e.1 ++ "**: " ++ displayValue e.1 e.2 ++ nl.

Definition section (c : change) : string :=
  "### Issue " ++ c.1 ++ nl ++ nl ++ String.concat "" (List.map fieldLine c.2).

End TamboSave.

(** ** Diagram widget: runs of the widget *)

Module DiagramExt.
Import Diagram.

(** One event in the life of the widget: the render effect runs for some
    [diagram] and [isComplete], the promise of a pending render settles, or
    the component is unmounted ([diagramRef.current] becomes [null]) while
    renders are still pending. *)
Inductive sysStep : System -> System -> Prop :=
| sys_effect s d complete : sysStep s (runEffect d complete s)
| sys_settle s i r s' : settleAt i r s = Some s' -> sysStep s s'
| sys_unmount s :
    sysStep s {| world := {| state := state (world s); innerHTML := None |};
                 pending := pending s;
                 registered := registered s |}.

(** What holds of the effect and of the renders it left pending, however
    the widget got where it is. *)
Definition sane (s : System) : Prop :=
  registered s = None /\
  forall c, In c (pending s) ->
            diagram c <> "" /\ isInitialized (seen c) = true.

(** *** Commits *)

(** The dependency array of the render effect,
    [[isInitialized, diagram, diagramId, isComplete, lastValidSvg, error]],
    as the render that made closure [c] evaluates it; [diagramId] comes
    from [useId] and is the same in every render. *)
Definition deps (c : Closure)
  : bool * string * bool * option string * option string :=
  (isInitialized (seen c), diagram c, isComplete c,
   lastValidSvg (seen c), error (seen c)).

(** The widget with the dependencies of its previous commit. *)
Record Widget := {
  sys : System;
  lastDeps : option (bool * string * bool * option string * option string)
}.

Definition mountWidget : Widget :=
  {| sys := initialSystem; lastDeps := None |}.

(** React commits a render with the props [d] and [complete] and the
    current state: the effect runs on the first commit and whenever a
    dependency differs from the previous commit's. *)
Definition commit (d : string) (complete : bool) (m : Widget) : Widget :=
  let c := capture d complete (world (sys m)) in
  if decide (lastDeps m = Some (deps c)) then m
  else {| sys := runEffect d complete (sys m); lastDeps := Some (deps c) |}.

(** The promise of the [i]-th pending render settles with [r]. *)
Definition settle (i : nat) (r : renderResult) (m : Widget) : option Widget :=
  (fun s => {| sys := s; lastDeps := lastDeps m |}) <$> settleAt i r (sys m).

(** A diagram [mermaid.render] rejects, and what it rejects with. *)
Definition flowBad : string := "graph TD; A-->".
Definition parseError : thrown := ErrorObject "Parse error".

(** The widget at rest on [flowAB] while generation is in progress: first
    commit, the render resolves, the changed cache makes the effect run
    again, that render resolves too, and the next commit finds the
    dependencies unchanged. *)
Definition shownAB : option Widget :=
  commit flowAB false
  <$> (settle 0 (Rendered svgAB) (commit flowAB false mountWidget)
         ≫= (fun m => settle 0 (Rendered svgAB) (commit flowAB false m))).

End DiagramExt.

(** * Properties *)

(** ** Data cards *)

Module CardDataFacts.
Import CardData.

Example toggle_add :
  handleToggleCard (Some {| selectedValues := ["a"; "b"] |}) "c"
  = Some {| selectedValues := ["a"; "b"; "c"] |}.
Proof. reflexivity. Qed.

Example toggle_remove :
  handleToggleCard (Some {| selectedValues := ["a"; "b"; "c"] |}) "b"
  = Some {| selectedValues := ["a"; "c"] |}.
Proof. reflexivity. Qed.

Lemma includes_true l v : includes l v = true <-> In v l.
Proof.
  unfold includes. rewrite existsb_exists. split.
  - intros (x & Hx & Heq). apply String.eqb_eq in Heq. by subst.
  - intros H. exists v. split; [done | apply String.eqb_refl].
Qed.

Lemma includes_false l v : includes l v = false <-> ~ In v l.
Proof.
  rewrite <- includes_true. destruct (includes l v); split; congruence.
Qed.

Lemma includes_app l1 l2 v :
  includes (l1 ++ l2) v = includes l1 v || includes l2 v.
Proof. unfold includes. apply existsb_app. Qed.

(** [indexOf] answers [-1] exactly on absent values. *)
Lemma indexOf_from_absent l v i :
  includes l v = false -> indexOf_from l v i = -1.
Proof.
  revert i. induction l as [|x l IH]; intros i H; simpl in *; [done|].
  destruct (String.eqb x v); simpl in H; [done | by apply IH].
Qed.

(** On a present value [indexOf] is the position of its first occurrence:
    cutting the list there is [remove_first]. *)
Lemma indexOf_from_present l v i :
  includes l v = true ->
  exists n : nat,
    indexOf_from l v i = i + Z.of_nat n /\
    (take n l ++ drop (n + 1) l)%list = remove_first v l.
Proof.
  revert i. induction l as [|x l IH]; intros i H; simpl in *; [done|].
  destruct (String.eqb x v) eqn:E.
  - exists 0%nat. split; [lia | done].
  - simpl in H. destruct (IH (i + 1) H) as (n & Hn & Hcut).
    exists (S n). split; [lia |]. simpl. by rewrite Hcut.
Qed.

Lemma splice_indexOf l v :
  includes l v = true -> splice l (indexOf l v) 1 = remove_first v l.
Proof.
  intros H. destruct (indexOf_from_present l v 0 H) as (n & Hn & Hcut).
  unfold splice, indexOf. rewrite Hn.
  replace (Z.to_nat (0 + Z.of_nat n)) with n by lia.
  by replace (n + Z.to_nat 1)%nat with (n + 1)%nat by lia.
Qed.

(** [handleToggleCard] by cases on membership. *)
Lemma handleToggleCard_eq st v :
  handleToggleCard (Some st) v =
  Some {| selectedValues :=
            if includes (selectedValues st) v
            then remove_first v (selectedValues st)
            else push (selectedValues st) v |}.
Proof.
  unfold handleToggleCard. cbv zeta.
  destruct (includes (selectedValues st) v) eqn:E.
  - destruct (indexOf_from_present _ _ 0 E) as (n & Hn & _).
    rewrite splice_indexOf by done. unfold indexOf. rewrite Hn.
    destruct (Z.ltb_spec (-1) (0 + Z.of_nat n)); [done | lia].
  - unfold indexOf. by rewrite indexOf_from_absent.
Qed.

Lemma includes_remove_first_ne l v w :
  w <> v -> includes (remove_first v l) w = includes l w.
Proof.
  intros Hne. induction l as [|x l IH]; simpl; [done|].
  destruct (String.eqb_spec x v) as [->|Hx]; simpl.
  - destruct (String.eqb_spec v w); [congruence | done].
  - by rewrite IH.
Qed.

Lemma includes_remove_first_NoDup l v :
  List.NoDup l -> includes (remove_first v l) v = false.
Proof.
  induction 1 as [|x l Hx Hnd IH]; simpl; [done|].
  destruct (String.eqb_spec x v) as [->|Hne]; simpl.
  - by apply includes_false.
  - rewrite IH. destruct (String.eqb_spec x v); [congruence | done].
Qed.

Lemma In_remove_first l v x : In x (remove_first v l) -> In x l.
Proof.
  induction l as [|y l IH]; simpl; [done|].
  destruct (String.eqb y v); simpl; intuition.
Qed.

Lemma NoDup_remove_first l v : List.NoDup l -> List.NoDup (remove_first v l).
Proof.
  induction 1 as [|x l Hx Hnd IH]; simpl; [constructor|].
  destruct (String.eqb x v); [done|].
  constructor; [|done]. intros H. by apply Hx, In_remove_first with v.
Qed.

Lemma NoDup_push l v :
  List.NoDup l -> includes l v = false -> List.NoDup (push l v).
Proof.
  intros Hnd Hv. apply includes_false in Hv. unfold push.
  apply NoDup_ListNoDup, NoDup_app. repeat split.
  - by apply NoDup_ListNoDup.
  - intros x Hx Hx'. apply list_elem_of_In in Hx.
    apply list_elem_of_singleton in Hx'. by subst.
  - apply NoDup_singleton.
Qed.

(** A toggle keeps a duplicate-free selection duplicate-free. *)
Lemma handleToggleCard_NoDup st v st' :
  List.NoDup (selectedValues st) ->
  handleToggleCard (Some st) v = Some st' ->
  List.NoDup (selectedValues st').
Proof.
  intros Hnd. rewrite handleToggleCard_eq. intros [= <-]. simpl.
  destruct (includes (selectedValues st) v) eqn:E.
  - by apply NoDup_remove_first.
  - by apply NoDup_push.
Qed.

(** Every selection the widget builds from the empty one is
    duplicate-free. *)
Lemma reachable_NoDup st : reachable st -> List.NoDup (selectedValues st).
Proof.
  induction 1 as [|st v st' _ IH Hstep]; [constructor|].
  by apply handleToggleCard_NoDup with st v.
Qed.

(** Without state the handler does nothing. *)
Lemma handleToggleCard_no_state v : handleToggleCard None v = None.
Proof. reflexivity. Qed.

Lemma others_remove_first v l : others v (remove_first v l) = others v l.
Proof.
  induction l as [|x l IH]; simpl; [done|].
  destruct (String.eqb x v) eqn:E; simpl; [done|].
  by rewrite E, IH.
Qed.

Lemma others_push v l : others v (push l v) = others v l.
Proof.
  unfold others, push. rewrite List.filter_app. simpl.
  rewrite String.eqb_refl. simpl. apply app_nil_r.
Qed.

Lemma remove_first_split v l :
  includes l v = true ->
  exists l1 l2, l = (l1 ++ v :: l2)%list /\ remove_first v l = (l1 ++ l2)%list.
Proof.
  induction l as [|x l IH]; simpl; [done|].
  destruct (String.eqb_spec x v) as [->|Hne]; simpl.
  - intros _. by exists [], l.
  - intros H. destruct (IH H) as (l1 & l2 & -> & Hr).
    exists (x :: l1), l2. simpl. by rewrite Hr.
Qed.

(** Membership of the toggled value: a toggle of an unselected value
    selects it; where the array holds no value twice, a toggle of a
    selected value unselects it and two toggles restore its membership. *)
Lemma handleToggleCard_membership st v :
  (isSelected (Some st) v = false ->
   isSelected (handleToggleCard (Some st) v) v = true) /\
  (List.NoDup (selectedValues st) ->
   (isSelected (Some st) v = true ->
    isSelected (handleToggleCard (Some st) v) v = false) /\
   isSelected (handleToggleCard (handleToggleCard (Some st) v) v) v
   = isSelected (Some st) v).
Proof.
  assert (Hadd : forall l, includes (push l v) v = true).
  { intros l. unfold push. rewrite includes_app. simpl.
    rewrite String.eqb_refl. apply orb_true_r. }
  split.
  - intros H. rewrite handleToggleCard_eq. simpl in *. rewrite H. apply Hadd.
  - intros Hnd. split.
    + intros H. rewrite handleToggleCard_eq. simpl in *. rewrite H.
      by apply includes_remove_first_NoDup.
    + rewrite !handleToggleCard_eq. simpl.
      destruct (includes (selectedValues st) v) eqn:E.
      * rewrite includes_remove_first_NoDup by done. apply Hadd.
      * rewrite Hadd. apply includes_remove_first_NoDup.
        by apply NoDup_push.
Qed.

(** C1: in every selection state of the widget, that is every state it
    builds from its initial empty selection by toggles, a toggle of a value
    that is not selected selects it, a toggle of a selected value unselects
    it, and two toggles of the same value restore its membership. *)
Theorem handleToggleCard_toggles st v :
  reachable st ->
  (isSelected (Some st) v = false ->
   isSelected (handleToggleCard (Some st) v) v = true) /\
  (isSelected (Some st) v = true ->
   isSelected (handleToggleCard (Some st) v) v = false) /\
  isSelected (handleToggleCard (handleToggleCard (Some st) v) v) v
  = isSelected (Some st) v.
Proof.
  intros Hr.
  assert (Hnd : List.NoDup (selectedValues st)).
  { induction Hr as [|st0 v0 st' _ IH Hstep]; [constructor|].
    by apply handleToggleCard_NoDup with st0 v0. }
  destruct (handleToggleCard_membership st v) as [Hadd Hrest].
  destruct (Hrest Hnd) as [Hdel Htwice]. by repeat split.
Qed.

Lemma handleToggleCard_toggles_witness :
  let st := {| selectedValues := ["a"; "b"] |} in
  reachable st /\
  isSelected (Some st) "a" = true /\
  isSelected (handleToggleCard (Some st) "a") "a" = false /\
  isSelected (handleToggleCard (handleToggleCard (Some st) "a") "a") "a" = true.
Proof.
  intros st.
  assert (Hr : reachable st).
  { apply (reach_toggle {| selectedValues := ["a"] |} "b").
    - apply (reach_toggle initialState "a"); [apply reach_init | reflexivity].
    - reflexivity. }
  destruct (handleToggleCard_toggles st "a" Hr) as (_ & Hdel & Htwice).
  split; [exact Hr|]. split; [reflexivity|].
  split; [exact (Hdel eq_refl) | exact Htwice].
Defined.

(** C10: a toggle of [v] changes nothing about any other value [w]: its
    membership is the same, and the values other than [v] keep their
    order, the array after the toggle being the old one with one
    occurrence of [v] cut out or with [v] appended. *)
Theorem handleToggleCard_frame st v w :
  w <> v ->
  isSelected (handleToggleCard (Some st) v) w = isSelected (Some st) w /\
  exists st',
    handleToggleCard (Some st) v = Some st' /\
    others v (selectedValues st') = others v (selectedValues st) /\
    ((exists l1 l2, selectedValues st = (l1 ++ v :: l2)%list /\
                    selectedValues st' = (l1 ++ l2)%list) \/
     selectedValues st' = (selectedValues st ++ [v])%list).
Proof.
  intros Hne. rewrite handleToggleCard_eq. simpl.
  destruct (includes (selectedValues st) v) eqn:E.
  - split; [by apply includes_remove_first_ne|].
    eexists. split; [reflexivity|]. simpl. split.
    + apply others_remove_first.
    + left. by apply remove_first_split.
  - split.
    + unfold push. rewrite includes_app. simpl.
      destruct (String.eqb_spec v w); [congruence|].
      by rewrite !orb_false_r.
    + eexists. split; [reflexivity|]. simpl. split.
      * apply others_push.
      * by right.
Qed.

Lemma handleToggleCard_frame_witness :
  let st := {| selectedValues := ["a"; "b"; "c"] |} in
  "c" <> "b" /\
  isSelected (handleToggleCard (Some st) "b") "c" = isSelected (Some st) "c".
Proof.
  assert (Hne : "c" <> "b") by discriminate.
  split; [exact Hne|].
  exact (proj1 (handleToggleCard_frame
                  {| selectedValues := ["a"; "b"; "c"] |} "b" "c" Hne)).
Defined.

End CardDataFacts.

(** ** Issue table *)

Module IssueTableFacts.
Import IssueTable.

Example rowKey_identifier : rowKey issue1 = "LIN-1".
Proof. reflexivity. Qed.

Example rowKey_id : rowKey issue2 = "9a1b".
Proof. reflexivity. Qed.

Example edit_title_shown :
  shownTitle (onChange issue1 (EditTitle "Crash") initialState) issue1
  = Some (VStr "Crash").
Proof. vm_compute. reflexivity. Qed.

Example edit_priority_shown :
  shownPriority (onChange issue1 (EditPriority "4") initialState) issue1
  = Some (VNum 4).
Proof. vm_compute. reflexivity. Qed.

Example edit_two_fields :
  edited (onChange issue1 (EditStatus "done")
            (onChange issue1 (EditTitle "Crash") initialState)) issue1
  = <[ "status" := VStr "done" ]> {[ "title" := VStr "Crash" ]}.
Proof. vm_compute. reflexivity. Qed.

(** *** [handleFieldChange] *)

Lemma handleFieldChange_editing st k field v :
  isSaving st = false ->
  editState (handleFieldChange st k field v)
  = <[ k := <[ field := storedValue field v ]>
              (default ∅ (editState st !! k)) ]> (editState st)
  /\ isSaving (handleFieldChange st k field v) = false.
Proof. intros H. unfold handleFieldChange. by rewrite H. Qed.

Lemma handleFieldChange_isSaving st k field v :
  isSaving (handleFieldChange st k field v) = isSaving st.
Proof. unfold handleFieldChange. by destruct (isSaving st) eqn:E. Qed.

(** A field change touches the buffer at its own key only. *)
Lemma handleFieldChange_other st k k' field v :
  k' <> k ->
  editState (handleFieldChange st k field v) !! k' = editState st !! k'.
Proof.
  intros Hne. unfold handleFieldChange.
  destruct (isSaving st); [done|]. simpl. by rewrite lookup_insert_ne.
Qed.

(** *** [handleSave] *)

Lemma run_app log1 log2 st : run (log1 ++ log2)%list st = run log2 (run log1 st).
Proof. apply fold_left_app. Qed.

Lemma handleSave_begin_eq st :
  handleSave_begin st =
  match changesOf (editState st) with
  | [] => ([], None)
  | _ :: _ => ([SetIsSaving true], Some (changesOf (editState st)))
  end.
Proof.
  unfold handleSave_begin. cbv zeta.
  by destruct (changesOf (editState st)).
Qed.

(** C2: [handleSave] calls [setEditState({})] exactly when [onSave] was
    invoked and completed without throwing, and the buffer is then empty;
    when [onSave] throws, the only setters called are [setIsSaving(true)]
    and [setIsSaving(false)], so the buffer after the call is the buffer
    before it and the handler's promise rejects with the same reason; with
    nothing to save, [onSave] is not invoked and no setter is called. *)
Theorem handleSave_clears_iff_saved st onSave :
  let changes := changesOf (editState st) in
  let log := (handleSave st onSave).1 in
  (In (SetEditState ∅) log <-> changes <> [] /\ onSave changes = Resolved) /\
  (forall m, In (SetEditState m) log -> m = ∅ /\ editState (run log st) = ∅) /\
  (forall r, changes <> [] -> onSave changes = Rejected r ->
     log = [SetIsSaving true; SetIsSaving false] /\
     editState (run log st) = editState st /\
     isSaving (run log st) = false /\
     (handleSave st onSave).2 = Rejected r) /\
  (changes = [] -> log = [] /\ (handleSave_begin st).2 = None).
Proof.
  intros changes log. subst log. unfold handleSave.
  rewrite handleSave_begin_eq. fold changes.
  destruct changes as [|c cs] eqn:Ec.
  - simpl. split; [split; [done | by intros [H _]]|].
    split; [done|]. split; [by intros r H | done].
  - destruct (onSave (c :: cs)) as [|r] eqn:Eo; simpl.
    + split; [split; [done | intros _; right; by left]|].
      split; [intros m [H|[H|[H|[]]]]; by inversion H|].
      split; [intros r _ H; discriminate H | intros H; discriminate H].
    + split; [split; [intros [H|[H|[]]]; discriminate H
                     | intros [_ H]; discriminate H]|].
      split; [intros m [H|[H|[]]]; discriminate H|].
      split; [by intros r' _ [= ->] | intros H; discriminate H].
Qed.

Lemma handleSave_clears_iff_saved_witness :
  let st := onChange issue1 (EditTitle "Crash") initialState in
  let failing := fun _ : list (string * gmap string value) => Rejected "offline" in
  changesOf (editState st) <> [] /\
  editState (run (handleSave st failing).1 st) = editState st /\
  isSaving (run (handleSave st failing).1 st) = false.
Proof.
  intros st failing.
  assert (Hc : changesOf (editState st) <> []) by (vm_compute; discriminate).
  split; [exact Hc|].
  destruct (handleSave_clears_iff_saved st failing) as (_ & _ & H & _).
  destruct (H "offline" Hc eq_refl) as (_ & H1 & H2 & _).
  split; [exact H1 | exact H2].
Defined.

(** C9: while [isSaving] is true a call of [handleFieldChange] returns the
    state it was given, whatever its arguments; and once [handleSave] has
    invoked [onSave], no sequence of such calls made before the promise
    settles changes the buffer. *)
Theorem handleFieldChange_while_saving st :
  (isSaving st = true ->
   forall k field v, handleFieldChange st k field v = st) /\
  (forall changes, (handleSave_begin st).2 = Some changes ->
   forall calls : list (string * string * option string),
     fold_left (fun s c => handleFieldChange s c.1.1 c.1.2 c.2) calls
               (run (handleSave_begin st).1 st)
     = run (handleSave_begin st).1 st /\
     editState (run (handleSave_begin st).1 st) = editState st).
Proof.
  split.
  - intros H k field v. unfold handleFieldChange. by rewrite H.
  - intros changes. rewrite handleSave_begin_eq.
    destruct (changesOf (editState st)); [done|]. intros _ calls. simpl.
    split; [|done].
    induction calls as [|c calls IH]; simpl; [done|].
    unfold handleFieldChange at 2. simpl. exact IH.
Qed.

Lemma handleFieldChange_while_saving_witness :
  let st := {| editState := {[ "LIN-1" := {[ "title" := VStr "Crash" ]} ]};
               isSaving := true |} in
  isSaving st = true /\
  handleFieldChange st "LIN-1" "status" (Some "done") = st.
Proof.
  intros st. split; [reflexivity|].
  exact (proj1 (handleFieldChange_while_saving st) eq_refl
               "LIN-1" "status" (Some "done")).
Defined.

(** *** Buffer keys *)

Lemma keysRendered_step issues st st' :
  step issues st st' -> keysRendered issues st -> keysRendered issues st'.
Proof.
  intros Hstep Hinv. destruct Hstep as [st issue e Hin|st Hen|st o Hs].
  - assert (Hfc : forall field v,
               keysRendered issues (handleFieldChange st (rowKey issue) field v)).
    { intros field v k Hk.
      destruct (decide (k = rowKey issue)) as [->|Hne]; [by exists issue|].
      rewrite handleFieldChange_other in Hk by done. by apply Hinv. }
    destruct e; apply Hfc.
  - rewrite handleSave_begin_eq.
    by destruct (changesOf (editState st)).
  - destruct o; [|done].
    intros k [f Hk]. simpl in Hk. by rewrite lookup_empty in Hk.
Qed.

(** As long as the [issues] prop stays the same: in every state reached
    from the empty buffer by edits in rendered rows, saves and their
    settling, each key of the buffer is the key ([identifier ?? id]) of an
    issue of the prop. *)
Lemma editState_keys_rendered issues st :
  reachable issues st ->
  forall k, is_Some (editState st !! k) ->
            exists issue, In issue issues /\ rowKey issue = k.
Proof.
  intros Hreach. change (keysRendered issues st).
  revert st Hreach. apply rtc_ind_r.
  - intros k [f Hk]. simpl in Hk. by rewrite lookup_empty in Hk.
  - intros st st' _ Hstep IH. by apply keysRendered_step with st.
Qed.

(** *** What a row shows *)

Lemma Number_not_null s : Number s <> VNull.
Proof. unfold Number. by destruct (digits s 0). Qed.

Lemma handleFieldChange_nullOnlyAssignee st k field v :
  (storedValue field v = VNull -> field = "assigneeId") ->
  nullOnlyAssignee st -> nullOnlyAssignee (handleFieldChange st k field v).
Proof.
  intros Hv Hinv k' f field'. unfold handleFieldChange.
  destruct (isSaving st); [apply Hinv|]. simpl.
  destruct (decide (k' = k)) as [->|Hne].
  - rewrite lookup_insert_eq. intros [= <-].
    destruct (decide (field' = field)) as [->|Hf].
    + rewrite lookup_insert_eq. intros [= H]. by apply Hv.
    + rewrite lookup_insert_ne by done.
      destruct (editState st !! k) as [f0|] eqn:E; simpl.
      * intros Hn. by apply (Hinv k f0 field').
      * by rewrite lookup_empty.
  - rewrite lookup_insert_ne by done. apply Hinv.
Qed.

Lemma nullOnlyAssignee_step issues st st' :
  step issues st st' -> nullOnlyAssignee st -> nullOnlyAssignee st'.
Proof.
  intros Hstep Hinv. destruct Hstep as [st issue e Hin|st Hen|st o Hs].
  - destruct e; simpl; apply handleFieldChange_nullOnlyAssignee; auto;
      unfold storedValue; simpl; intros H; try discriminate H.
    destruct (String.eqb v ""); simpl in H; [discriminate H|].
    by apply Number_not_null in H.
  - rewrite handleSave_begin_eq. by destruct (changesOf (editState st)).
  - destruct o; [|done]. intros k f field Hk. simpl in Hk.
    by rewrite lookup_empty in Hk.
Qed.

Lemma reachable_nullOnlyAssignee issues st :
  reachable issues st -> nullOnlyAssignee st.
Proof.
  revert st. apply rtc_ind_r.
  - intros k f field Hk. simpl in Hk. by rewrite lookup_empty in Hk.
  - intros st st' _ Hstep IH. by apply nullOnlyAssignee_step with issues st.
Qed.

Lemma edited_lookup st issue field v :
  edited st issue !! field = Some v ->
  exists f, editState st !! rowKey issue = Some f /\ f !! field = Some v.
Proof.
  unfold edited. destruct (editState st !! rowKey issue) as [f|]; simpl.
  - intros H. by exists f.
  - by rewrite lookup_empty.
Qed.

Lemma coalesce_override (o : option value) (b : value) :
  o <> Some VNull -> coalesce o (Some b) = Some (default b o).
Proof. by destruct o as [[]|]. Qed.

(** On every state the widget reaches, the title, description, status and
    priority controls show the buffered override of the row's key when
    there is one and the prop's value otherwise. *)
Lemma shown_override_or_prop issues st issue :
  reachable issues st ->
  shownTitle st issue
  = Some (default (VStr (title issue)) (edited st issue !! "title")) /\
  shownDescription st issue
  = Some (default (VStr (description issue))
                  (edited st issue !! "description")) /\
  shownStatus st issue
  = Some (default (VStr (status issue)) (edited st issue !! "status")) /\
  shownPriority st issue
  = Some (default (VNum (priority issue)) (edited st issue !! "priority")).
Proof.
  intros Hr. apply reachable_nullOnlyAssignee in Hr.
  assert (Hnn : forall field, field <> "assigneeId" ->
                              edited st issue !! field <> Some VNull).
  { intros field Hf Hn. apply edited_lookup in Hn as (f & Hk & Hn).
    by apply Hf, Hr with (rowKey issue) f. }
  unfold shownTitle, shownDescription, shownStatus, shownPriority.
  repeat split; try (rewrite coalesce_override; [done | by apply Hnn]).
  pose proof (Hnn "priority") as Hp.
  destruct (edited st issue !! "priority") as [[]|]; try done.
  by destruct Hp.
Qed.

(** The assignee control, by cases on the buffered override. *)
Lemma shownAssigneeId_cases st issue :
  shownAssigneeId st issue =
  match edited st issue !! "assigneeId" with
  | Some VNull | None => Some (VStr (default "" (assigneeId issue)))
  | Some v => Some v
  end.
Proof.
  unfold shownAssigneeId.
  destruct (edited st issue !! "assigneeId") as [[]|];
    by destruct (assigneeId issue).
Qed.

(** C4, at the assignee of an assigned issue set to "Unassigned": the
    handler buffers [null] under the row's key, [handleSave] would send
    that [null], and the control still shows the prop's assignee ["u1"],
    not the empty value of the "Unassigned" option. *)
Theorem unassigned_override_shows_prop_assignee :
  let st := onChange issue1 (EditAssignee "") initialState in
  assigneeId issue1 = Some "u1" /\
  edited st issue1 !! "assigneeId" = Some VNull /\
  changesOf (editState st) = [("LIN-1", {[ "assigneeId" := VNull ]})] /\
  shownAssigneeId st issue1 = Some (VStr "u1") /\
  shownAssigneeId st issue1 <> Some (VStr "").
Proof.
  intros st.
  split; [reflexivity|].
  split; [vm_compute; reflexivity|].
  split; [vm_compute; reflexivity|].
  split; [vm_compute; reflexivity | vm_compute; discriminate].
Qed.

End IssueTableFacts.

(** ** Diagram widget *)

Module DiagramFacts.
Import Diagram.

Example first_render_shown :
  (settleAt 0 (Rendered svgAB) (runEffect flowAB false initialSystem))
  = Some {| world := {| state := {| isLoading := false; error := None;
                                    isInitialized := true;
                                    lastValidSvg := Some svgAB |};
                        innerHTML := Some svgAB |};
            pending := [];
            registered := None |}.
Proof. reflexivity. Qed.

Example not_initialized_no_render :
  spawned (renderEffect (capture flowAB false initialWorld) initialWorld) = None.
Proof. reflexivity. Qed.

Lemma errorText_truthy err : negb (String.eqb (errorText err) "") = true.
Proof. by destruct err. Qed.

(** The effect starts a render only on a mounted surface, which it
    clears, and never returns a cleanup. *)
Lemma renderEffect_spawned c w c' :
  spawned (renderEffect c w) = Some c' ->
  c' = c /\ after (renderEffect c w) = renderDiagram_begin w /\
  exists html, innerHTML w = Some html.
Proof.
  unfold renderEffect.
  destruct (negb (isInitialized (seen c))); simpl; [done|].
  destruct (String.eqb (diagram c) ""); simpl; [done|].
  destruct (innerHTML w) as [html|] eqn:E; simpl; [|done].
  intros [= <-]. eauto.
Qed.

Lemma renderEffect_no_cleanup c w : cleanup (renderEffect c w) = None.
Proof. unfold renderEffect. by case_match. Qed.

Lemma initEffect_no_cleanup c w : cleanup (initEffect c w) = None.
Proof. reflexivity. Qed.

(** A successful render is what the cache holds afterwards. *)
Lemma render_success_caches c w svg :
  lastValidSvg (state (renderDiagram_settle c (Rendered svg) w)) = Some svg /\
  isLoading (state (renderDiagram_settle c (Rendered svg) w)) = false /\
  ((isComplete c || negb (truthy (error (seen c)))) = true ->
   forall html, innerHTML w = Some html ->
     innerHTML (renderDiagram_settle c (Rendered svg) w) = Some svg).
Proof.
  unfold renderDiagram_settle.
  destruct (isComplete c || negb (truthy (error (seen c)))); simpl.
  - unfold setInnerHTML. simpl.
    destruct (innerHTML w); simpl; repeat split; done.
  - repeat split; done.
Qed.

(** One run of [renderDiagram] taken alone, at the end of its
    continuation and before the next commit: a render started by the effect
    whose [mermaid.render] throws sets the error message (a non-empty
    string), ends loading and leaves the cache as it was; if generation is
    complete the surface is empty; if generation is still in progress and
    the closure of the run holds a cached SVG, the surface holds that
    SVG. *)
Lemma render_failure_fallback c w err :
  spawned (renderEffect c w) = Some c ->
  let w' := renderDiagram_settle c (Threw err) (after (renderEffect c w)) in
  error (state w') = Some (errorText err) /\
  truthy (error (state w')) = true /\
  isLoading (state w') = false /\
  lastValidSvg (state w') = lastValidSvg (state w) /\
  (isComplete c = true ->
   innerHTML w' = Some "" /\ showsError (isComplete c) w' = true) /\
  (isComplete c = false ->
   showsError (isComplete c) w' = false /\
   forall svg, lastValidSvg (seen c) = Some svg -> innerHTML w' = Some svg).
Proof.
  intros Hs. apply renderEffect_spawned in Hs as (_ & -> & html & Hh).
  unfold renderDiagram_settle, renderDiagram_begin, setInnerHTML, showsError.
  simpl. rewrite Hh. simpl.
  destruct (isComplete c) eqn:Ec; simpl.
  - rewrite errorText_truthy. repeat split; done.
  - destruct (lastValidSvg (seen c)) as [svg|] eqn:El; simpl.
    + destruct (String.eqb svg "") eqn:Ee; simpl;
        rewrite ?errorText_truthy, ?andb_false_r; repeat split; try done.
      intros svg' [= <-]. apply String.eqb_eq in Ee. by subst.
    + rewrite ?errorText_truthy, ?andb_false_r. repeat split; done.
Qed.

(** *** Two renders in flight *)

Lemma runEffect_pending d complete s :
  exists more,
    pending (runEffect d complete s) = (pending s ++ more)%list /\
    registered (runEffect d complete s) = None.
Proof.
  unfold runEffect. cbv zeta. simpl. eexists. split; [reflexivity|].
  apply renderEffect_no_cleanup.
Qed.

(** C7, with the render of [flowAB] still pending when [flowBC] is
    requested: both renders are in flight and no cleanup is registered;
    if the earlier one resolves first, its SVG is put on the surface and
    loading ends while the later one is still awaited; if it resolves
    last, its SVG is what the surface and the cache end with, although the
    diagram prop is [flowBC].  The surface after both have settled depends
    on the order in which they did. *)
Lemma prior_render_not_superseded :
  pending twoInFlight
  = [ {| diagram := flowAB; isComplete := false;
         seen := {| isLoading := true; error := None;
                    isInitialized := true; lastValidSvg := None |} |};
      {| diagram := flowBC; isComplete := false;
         seen := {| isLoading := true; error := None;
                    isInitialized := true; lastValidSvg := None |} |} ] /\
  registered twoInFlight = None /\
  (settleAt 0 (Rendered svgAB) twoInFlight
   = Some {| world := {| state := {| isLoading := false; error := None;
                                     isInitialized := true;
                                     lastValidSvg := Some svgAB |};
                         innerHTML := Some svgAB |};
             pending := [ {| diagram := flowBC; isComplete := false;
                             seen := {| isLoading := true; error := None;
                                        isInitialized := true;
                                        lastValidSvg := None |} |} ];
             registered := None |}) /\
  (world <$> (settleAt 1 (Rendered svgBC) twoInFlight
                ≫= settleAt 0 (Rendered svgAB)))
  = Some {| state := {| isLoading := false; error := None;
                        isInitialized := true;
                        lastValidSvg := Some svgAB |};
            innerHTML := Some svgAB |} /\
  (world <$> (settleAt 0 (Rendered svgAB) twoInFlight
                ≫= settleAt 0 (Rendered svgBC)))
  = Some {| state := {| isLoading := false; error := None;
                        isInitialized := true;
                        lastValidSvg := Some svgBC |};
            innerHTML := Some svgBC |}.
Proof. repeat (split; [vm_compute; reflexivity|]). vm_compute; reflexivity. Qed.

(** C7 (amended): a render that is pending when a new one is requested is
    not cancelled.  The new run of the effect registers no cleanup and
    leaves it pending at its place; whenever its promise resolves
    afterwards, its continuation still stores its SVG in the cache, ends
    loading and, if generation was complete or no error was set when it
    started, puts its SVG on the mounted surface. *)
Theorem pending_render_still_settles s i c d complete :
  pending s !! i = Some c ->
  pending (runEffect d complete s) !! i = Some c /\
  registered (runEffect d complete s) = None /\
  forall s' svg,
    pending s' !! i = Some c ->
    exists s'',
      settleAt i (Rendered svg) s' = Some s'' /\
      lastValidSvg (state (world s'')) = Some svg /\
      isLoading (state (world s'')) = false /\
      ((isComplete c || negb (truthy (error (seen c)))) = true ->
       forall html, innerHTML (world s') = Some html ->
                    innerHTML (world s'') = Some svg).
Proof.
  intros Hi. destruct (runEffect_pending d complete s) as (more & -> & Hreg).
  split; [by apply lookup_app_l_Some|]. split; [done|].
  intros s' svg Hi'. unfold settleAt. rewrite Hi'. eexists.
  split; [reflexivity|]. simpl. apply render_success_caches.
Qed.

Lemma pending_render_still_settles_witness :
  let s := runEffect flowAB false initialSystem in
  let c := capture flowAB false (world initialSystem) in
  pending s !! 0%nat = Some c /\
  pending (runEffect flowBC false s) !! 0%nat = Some c /\
  registered (runEffect flowBC false s) = None.
Proof.
  intros s c.
  assert (H0 : pending s !! 0%nat = Some c) by reflexivity.
  split; [exact H0|].
  destruct (pending_render_still_settles s 0 c flowBC false H0) as (H1 & H2 & _).
  split; [exact H1 | exact H2].
Defined.

End DiagramFacts.

(** ** Diagram payload schema *)

Module ZodFacts.
Import Zod.

Example parse_minimal :
  parse renderDiagramSchema (JObj [("diagram", JStr "graph TD; A-->B;")])
  = Some (JObj [ ("diagram", JStr "graph TD; A-->B;");
                 ("theme", JStr "default");
                 ("width", JStr "100%");
                 ("height", JStr "400px") ]).
Proof. reflexivity. Qed.

Example parse_given :
  parse renderDiagramSchema
    (JObj [ ("theme", JStr "forest"); ("diagram", JStr "graph TD; A-->B;");
            ("height", JStr "10em"); ("extra", JNum 1) ])
  = Some (JObj [ ("diagram", JStr "graph TD; A-->B;");
                 ("theme", JStr "forest");
                 ("width", JStr "100%");
                 ("height", JStr "10em") ]).
Proof. reflexivity. Qed.

Example parse_bad_theme :
  parse renderDiagramSchema
    (JObj [ ("diagram", JStr "graph TD; A-->B;"); ("theme", JStr "light") ])
  = None.
Proof. reflexivity. Qed.

Example parse_null_theme :
  parse renderDiagramSchema
    (JObj [ ("diagram", JStr "graph TD; A-->B;"); ("theme", JNull) ])
  = None.
Proof. reflexivity. Qed.

Example parse_no_diagram :
  parse renderDiagramSchema (JObj [("theme", JStr "dark")]) = None.
Proof. reflexivity. Qed.

Lemma parse_optional_string v :
  parse (ZOptional ZString) v = if isUndefined v then Some JUndefined
                                else match v with
                                     | JStr _ => Some v
                                     | _ => None
                                     end.
Proof. by destruct v. Qed.

Lemma parse_default_string d v :
  parse (ZDefault (ZOptional ZString) (JStr d)) v
  = if isUndefined v then Some (JStr d)
    else match v with
         | JStr _ => Some v
         | _ => None
         end.
Proof. by destruct v. Qed.

Lemma parse_theme v :
  parse (ZDefault (ZOptional (ZEnum themes)) (JStr "default")) v
  = if isUndefined v then Some (JStr "default")
    else match v with
         | JStr t => if existsb (String.eqb t) themes then Some v else None
         | _ => None
         end.
Proof. by destruct v. Qed.

Lemma theme_listed t : existsb (String.eqb t) themes = true <-> In t themes.
Proof.
  rewrite existsb_exists. split.
  - intros (x & Hx & Heq). apply String.eqb_eq in Heq. by subst.
  - intros H. exists t. split; [done | apply String.eqb_refl].
Qed.

(** *** [renderDiagramSchema] *)

(** An object schema with five keys parses key by key. *)
Lemma parse_object5 k1 s1 k2 s2 k3 s3 k4 s4 k5 s5 members :
  parse (ZObject [(k1, s1); (k2, s2); (k3, s3); (k4, s4); (k5, s5)])
        (JObj members)
  = match parse s1 (get members k1), parse s2 (get members k2),
          parse s3 (get members k3), parse s4 (get members k4),
          parse s5 (get members k5) with
    | Some v1, Some v2, Some v3, Some v4, Some v5 =>
        Some (JObj (keep k1 v1 (keep k2 v2 (keep k3 v3
                      (keep k4 v4 (keep k5 v5 []))))))
    | _, _, _, _, _ => None
    end.
Proof.
  cbn [parse].
  destruct (parse s1 (get members k1)), (parse s2 (get members k2)),
    (parse s3 (get members k3)), (parse s4 (get members k4)),
    (parse s5 (get members k5)); reflexivity.
Qed.

Local Ltac accept :=
  left; split; [repeat split; eauto | reflexivity].

Local Ltac reject_at pat :=
  right; split; [intros pat; congruence | reflexivity].

(** Parsing succeeds on exactly the well-formed payloads, with [parsed] as
    result. *)
Lemma parse_cases members :
  (wellFormed members /\
   parse renderDiagramSchema (JObj members) = Some (parsed members)) \/
  (~ wellFormed members /\
   parse renderDiagramSchema (JObj members) = None).
Proof.
  unfold wellFormed, parsed, optionalString, optionalTheme, renderDiagramSchema.
  rewrite parse_object5, parse_optional_string, parse_theme,
    !parse_default_string.
  cbn [parse].
  remember (get members "diagram") as d eqn:Ed.
  remember (get members "title") as t eqn:Et.
  remember (get members "theme") as th eqn:Eth.
  remember (get members "width") as w eqn:Ew.
  remember (get members "height") as h eqn:Eh.
  clear Ed Et Eth Ew Eh.
  destruct d; try (reject_at ipattern:(((?&?)&_))).
  destruct t; try (reject_at ipattern:((_&[?|(?&?)]&_))).
  all: destruct th as [| | | |x|];
    try (reject_at ipattern:((_&_&[?|(?&?&?)]&_))).
  all: try (destruct (existsb (String.eqb x) themes) eqn:Ex;
            [apply theme_listed in Ex
            |right; split; [|reflexivity];
             intros (_&_&[?|(?&?&Hin)]&_); [congruence|];
             simplify_eq; apply theme_listed in Hin; congruence]).
  all: destruct w; try (reject_at ipattern:((_&_&_&[?|(?&?)]&_))).
  all: destruct h; try (reject_at ipattern:((_&_&_&_&[?|(?&?)]))).
  all: accept.
Qed.

Lemma get_parsed members :
  exists o,
    parsed members = JObj o /\
    get o "theme" = orDefault (get members "theme") "default" /\
    get o "width" = orDefault (get members "width") "100%" /\
    get o "height" = orDefault (get members "height") "400px".
Proof.
  unfold parsed, keep. eexists. split; [reflexivity|].
  destruct (isUndefined (get members "diagram")),
    (isUndefined (get members "title")); repeat split.
Qed.

(** C8: the schema accepts exactly the payload objects with a string
    [diagram], an optional string [title], an optional [theme] among the
    five listed and optional string [width] and [height]; in what it
    returns, each of [theme], [width] and [height] that the payload left
    out is ["default"], ["100%"] and ["400px"], and each one given is the
    payload's; a payload with a [theme] that is not one of the five is
    rejected. *)
Theorem renderDiagramSchema_defaults members :
  (is_Some (parse renderDiagramSchema (JObj members)) <-> wellFormed members) /\
  (forall out,
     parse renderDiagramSchema (JObj members) = Some out ->
     exists o,
       out = JObj o /\
       get o "theme" = orDefault (get members "theme") "default" /\
       get o "width" = orDefault (get members "width") "100%" /\
       get o "height" = orDefault (get members "height") "400px" /\
       (get members "theme" = JUndefined -> get o "theme" = JStr "default") /\
       (get members "width" = JUndefined -> get o "width" = JStr "100%") /\
       (get members "height" = JUndefined -> get o "height" = JStr "400px")) /\
  (get members "theme" <> JUndefined ->
   (forall t, get members "theme" = JStr t -> ~ In t themes) ->
   parse renderDiagramSchema (JObj members) = None).
Proof.
  destruct (parse_cases members) as [[Hwf Hp]|[Hwf Hp]]; rewrite Hp.
  - split; [split; [done | by eexists]|]. split.
    + intros out [= <-].
      destruct (get_parsed members) as (o & Ho & Hth & Hw & Hh).
      exists o. rewrite Hth, Hw, Hh.
      repeat split; try done; by intros ->.
    + intros Hdef Hbad. destruct Hwf as (_ & _ & [Hu|(t & Ht & Hin)] & _).
      * done.
      * by destruct (Hbad t Ht).
  - split; [split; [by intros [? ?] | done]|]. split; [done|done].
Qed.

Lemma renderDiagramSchema_defaults_witness :
  let members := [("diagram", JStr "graph TD; A-->B;"); ("width", JStr "50%")] in
  exists out o,
    parse renderDiagramSchema (JObj members) = Some out /\
    get members "theme" = JUndefined /\
    out = JObj o /\
    get o "theme" = JStr "default" /\
    get o "width" = JStr "50%" /\
    get o "height" = JStr "400px".
Proof.
  intros members.
  destruct (renderDiagramSchema_defaults members) as (_ & H & _).
  destruct (H _ eq_refl) as (o & Ho & _ & Hw & _ & Hth & _ & Hh).
  eexists _, o. split; [reflexivity|]. split; [reflexivity|].
  split; [exact Ho|]. split; [exact (Hth eq_refl)|].
  split; [exact Hw | exact (Hh eq_refl)].
Defined.

End ZodFacts.

(** * Further properties *)

(** ** Data cards: sizes, double toggles, independent cards *)

Module CardDataMore.
Import CardData CardDataFacts.

Lemma length_remove_first l v :
  includes l v = true -> S (length (remove_first v l)) = length l.
Proof.
  induction l as [|x l IH]; simpl; [done|].
  destruct (String.eqb x v); simpl; [done|].
  intros H. by rewrite IH.
Qed.

Lemma remove_first_push_absent l v :
  includes l v = false -> remove_first v (push l v) = l.
Proof.
  unfold push. induction l as [|x l IH]; simpl.
  - by rewrite String.eqb_refl.
  - destruct (String.eqb x v); simpl; [done|]. intros H. by rewrite IH.
Qed.

Lemma remove_first_push_present l v w :
  includes l v = true -> remove_first v (push l w) = push (remove_first v l) w.
Proof.
  unfold push. induction l as [|x l IH]; simpl; [done|].
  destruct (String.eqb x v); simpl; [done|]. intros H. by rewrite IH.
Qed.

Lemma remove_first_comm l v w :
  remove_first v (remove_first w l) = remove_first w (remove_first v l).
Proof.
  induction l as [|x l IH]; simpl; [done|].
  destruct (String.eqb x w) eqn:Ew, (String.eqb x v) eqn:Ev; simpl;
    rewrite ?Ew, ?Ev; try done.
  - apply String.eqb_eq in Ew, Ev. by subst.
  - by rewrite IH.
Qed.

Lemma remove_first_perm l v :
  includes l v = true -> (v :: remove_first v l) ≡ₚ l.
Proof.
  induction l as [|x l IH]; simpl; [done|].
  destruct (String.eqb_spec x v) as [->|Hne]; simpl; [done|].
  intros H. rewrite <- (IH H) at 2. apply Permutation_swap.
Qed.

Lemma includes_push_ne l v w :
  w <> v -> includes (push l v) w = includes l w.
Proof.
  intros Hne. unfold push. rewrite includes_app. simpl.
  destruct (String.eqb_spec v w); [congruence|]. by rewrite !orb_false_r.
Qed.

(** A toggle changes the number of selected entries by exactly one: one
    entry less when the value was selected, one more when it was not. *)
Theorem handleToggleCard_length st v :
  exists st',
    handleToggleCard (Some st) v = Some st' /\
    if isSelected (Some st) v
    then S (length (selectedValues st')) = length (selectedValues st)
    else length (selectedValues st') = S (length (selectedValues st)).
Proof.
  rewrite handleToggleCard_eq. eexists. split; [reflexivity|]. simpl.
  destruct (includes (selectedValues st) v) eqn:E.
  - by apply length_remove_first.
  - unfold push. rewrite length_app. simpl. lia.
Qed.

(** Two toggles of a value that was not selected give back the very same
    array; two toggles of a value selected once move it to the end of the
    array, the other entries keeping their places. *)
Theorem handleToggleCard_twice st v :
  (isSelected (Some st) v = false ->
   handleToggleCard (handleToggleCard (Some st) v) v = Some st) /\
  (isSelected (Some st) v = true -> List.NoDup (selectedValues st) ->
   handleToggleCard (handleToggleCard (Some st) v) v
   = Some {| selectedValues := remove_first v (selectedValues st) ++ [v] |} /\
   remove_first v (selectedValues st) ++ [v] ≡ₚ selectedValues st).
Proof.
  destruct st as [l]. split.
  - intros H. rewrite !handleToggleCard_eq. simpl in *. rewrite H.
    assert (Hin : includes (push l v) v = true).
    { unfold push. rewrite includes_app. simpl. rewrite String.eqb_refl.
      apply orb_true_r. }
    rewrite Hin. by rewrite remove_first_push_absent.
  - intros H Hnd. rewrite !handleToggleCard_eq. simpl in *. rewrite H.
    rewrite includes_remove_first_NoDup by done. split; [done|].
    rewrite <- (remove_first_perm l v H) at 2.
    symmetry. apply Permutation_cons_append.
Qed.

Lemma handleToggleCard_twice_witness :
  let st := {| selectedValues := ["a"; "b"; "c"] |} in
  isSelected (Some st) "b" = true /\
  List.NoDup (selectedValues st) /\
  handleToggleCard (handleToggleCard (Some st) "b") "b"
  = Some {| selectedValues := ["a"; "c"; "b"] |}.
Proof.
  intros st.
  assert (Hnd : List.NoDup (selectedValues st)).
  { repeat constructor; simpl; intuition congruence. }
  split; [reflexivity|]. split; [exact Hnd|].
  exact (proj1 (proj2 (handleToggleCard_twice st "b") eq_refl Hnd)).
Defined.

(** Toggles of two different values can be done in either order: the two
    resulting arrays hold the same entries, each as often (they differ at
    most in the order of the two values when both are newly added). *)
Theorem handleToggleCard_commute st v w :
  v <> w ->
  exists s1 s2,
    handleToggleCard (handleToggleCard (Some st) v) w = Some s1 /\
    handleToggleCard (handleToggleCard (Some st) w) v = Some s2 /\
    selectedValues s1 ≡ₚ selectedValues s2.
Proof.
  intros Hne. destruct st as [l]. rewrite !handleToggleCard_eq. simpl.
  do 2 eexists. split; [reflexivity|]. split; [reflexivity|]. simpl.
  destruct (includes l v) eqn:Ev, (includes l w) eqn:Ew.
  - rewrite includes_remove_first_ne, Ew by done.
    rewrite includes_remove_first_ne, Ev by done.
    by rewrite remove_first_comm.
  - rewrite includes_remove_first_ne, Ew by done.
    rewrite includes_push_ne, Ev by done.
    by rewrite remove_first_push_present.
  - rewrite includes_push_ne, Ew by done.
    rewrite includes_remove_first_ne, Ev by done.
    by rewrite remove_first_push_present.
  - rewrite includes_push_ne, Ew by done.
    rewrite includes_push_ne, Ev by done.
    unfold push. rewrite <- !app_assoc. simpl.
    apply Permutation_app_head, Permutation_swap.
Qed.

Lemma handleToggleCard_commute_witness :
  let st := {| selectedValues := ["a"] |} in
  "b" <> "c" /\
  exists s1 s2,
    handleToggleCard (handleToggleCard (Some st) "b") "c" = Some s1 /\
    handleToggleCard (handleToggleCard (Some st) "c") "b" = Some s2 /\
    selectedValues s1 ≡ₚ selectedValues s2.
Proof.
  intros st.
  assert (Hne : "b" <> "c") by discriminate.
  split; [exact Hne|].
  exact (handleToggleCard_commute st "b" "c" Hne).
Defined.

Lemma reachable_NoDup_witness :
  let st := {| selectedValues := ["b"] |} in
  reachable st /\ List.NoDup (selectedValues st).
Proof.
  intros st.
  assert (Hr : reachable st).
  { apply (reach_toggle {| selectedValues := ["a"; "b"] |} "a").
    - apply (reach_toggle {| selectedValues := ["a"] |} "b").
      + apply (reach_toggle initialState "a"); [apply reach_init | reflexivity].
      + reflexivity.
    - reflexivity. }
  split; [exact Hr|]. exact (reachable_NoDup st Hr).
Defined.

End CardDataMore.

(** ** Issue table: the buffer as a two-level map *)

Module IssueTableMore.
Import IssueTable IssueTableExt IssueTableFacts.

Lemma handleFieldChange_editState st k field v :
  isSaving st = false ->
  handleFieldChange st k field v
  = {| editState := <[ k := <[ field := storedValue field v ]>
                             (default ∅ (editState st !! k)) ]> (editState st);
       isSaving := false |}.
Proof. intros H. unfold handleFieldChange. by rewrite H. Qed.

Lemma override_default (es : gmap string (gmap string value)) k field :
  default ∅ (es !! k) !! field = es !! k ≫= (fun f : gmap string value => f !! field).
Proof. destruct (es !! k); simpl; [done | by rewrite lookup_empty]. Qed.

(** Outside a save, [handleFieldChange] writes exactly one cell of the
    buffer: reading back the field it wrote gives the stored value (the
    number for a priority, the string or [null] otherwise), and every other
    field of every row reads as before. *)
Theorem handleFieldChange_override st k field v k' field' :
  isSaving st = false ->
  override (handleFieldChange st k field v) k' field'
  = if decide (k' = k /\ field' = field)
    then Some (storedValue field v)
    else override st k' field'.
Proof.
  intros H. rewrite handleFieldChange_editState by done.
  unfold override. simpl.
  destruct (decide (k' = k)) as [->|Hk].
  - rewrite lookup_insert_eq. simpl.
    destruct (decide (field' = field)) as [->|Hf].
    + rewrite lookup_insert_eq. by rewrite decide_True.
    + rewrite lookup_insert_ne by done. rewrite decide_False by tauto.
      apply override_default.
  - rewrite lookup_insert_ne by done. by rewrite decide_False by tauto.
Qed.

Lemma handleFieldChange_override_witness :
  let st := handleFieldChange initialState "LIN-1" "title" (Some "Crash") in
  isSaving st = false /\
  override (handleFieldChange st "LIN-1" "priority" (Some "3")) "LIN-1" "priority"
  = Some (VNum 3) /\
  override (handleFieldChange st "LIN-1" "priority" (Some "3")) "LIN-1" "title"
  = Some (VStr "Crash").
Proof.
  intros st.
  assert (H : isSaving st = false) by reflexivity.
  split; [exact H|]. split.
  - exact (handleFieldChange_override st "LIN-1" "priority" (Some "3")
             "LIN-1" "priority" H).
  - rewrite (handleFieldChange_override st "LIN-1" "priority" (Some "3")
               "LIN-1" "title" H). reflexivity.
Defined.

(** Two changes of the same field of the same row: the later value is the
    one buffered, as if the earlier change had not been made. *)
Theorem handleFieldChange_last_wins st k field v1 v2 :
  handleFieldChange (handleFieldChange st k field v1) k field v2
  = handleFieldChange st k field v2.
Proof.
  destruct (isSaving st) eqn:Hs.
  - unfold handleFieldChange. by rewrite !Hs.
  - rewrite (handleFieldChange_editState st) by done.
    rewrite (handleFieldChange_editState st) by done.
    rewrite handleFieldChange_editState by done. simpl.
    rewrite lookup_insert_eq. simpl. by rewrite !insert_insert_eq.
Qed.

(** Changes of two different cells (another row, or another field of the
    same row) can be made in either order: the buffer ends up the same. *)
Theorem handleFieldChange_commute st k1 field1 v1 k2 field2 v2 :
  k1 <> k2 \/ field1 <> field2 ->
  handleFieldChange (handleFieldChange st k1 field1 v1) k2 field2 v2
  = handleFieldChange (handleFieldChange st k2 field2 v2) k1 field1 v1.
Proof.
  intros Hne. destruct (isSaving st) eqn:Hs.
  - unfold handleFieldChange. by rewrite !Hs.
  - rewrite (handleFieldChange_editState st k1) by done.
    rewrite (handleFieldChange_editState st k2) by done.
    rewrite !handleFieldChange_editState by done. simpl. f_equal.
    destruct (decide (k1 = k2)) as [->|Hk].
    + destruct Hne as [Hne|Hf]; [done|].
      rewrite !lookup_insert_eq. simpl. rewrite !insert_insert_eq.
      f_equal. by apply insert_insert_ne.
    + rewrite (lookup_insert_ne _ k1 k2) by done.
      rewrite (lookup_insert_ne _ k2 k1) by done.
      by apply insert_insert_ne.
Qed.

Lemma handleFieldChange_commute_witness :
  "title" <> "status" /\
  handleFieldChange (handleFieldChange initialState "LIN-1" "title" (Some "Crash"))
                    "LIN-1" "status" (Some "done")
  = handleFieldChange (handleFieldChange initialState "LIN-1" "status" (Some "done"))
                      "LIN-1" "title" (Some "Crash").
Proof.
  assert (H : "title" <> "status") by discriminate.
  split; [exact H|].
  exact (handleFieldChange_commute initialState "LIN-1" "title" (Some "Crash")
           "LIN-1" "status" (Some "done") (or_intror H)).
Defined.

(** *** Rows after an edit *)

Lemma onChange_eq issue e st :
  onChange issue e st
  = handleFieldChange st (rowKey issue) (editField e) (editArgument e).
Proof. by destruct e. Qed.

Lemma edited_handleFieldChange st issue field v :
  isSaving st = false ->
  edited (handleFieldChange st (rowKey issue) field v) issue
  = <[ field := storedValue field v ]> (edited st issue).
Proof.
  intros H. rewrite handleFieldChange_editState by done.
  unfold edited. simpl. by rewrite lookup_insert_eq.
Qed.

(** Outside a save, what is typed into a control is what the control shows
    next: any string, the empty one included, for title, description and
    status; the chosen person for the assignee; the number of the chosen
    option for the priority. *)
Theorem onChange_shown st issue :
  isSaving st = false ->
  (forall v, shownTitle (onChange issue (EditTitle v) st) issue = Some (VStr v)) /\
  (forall v, shownDescription (onChange issue (EditDescription v) st) issue
             = Some (VStr v)) /\
  (forall v, shownStatus (onChange issue (EditStatus v) st) issue
             = Some (VStr v)) /\
  (forall v, v <> "" ->
             shownAssigneeId (onChange issue (EditAssignee v) st) issue
             = Some (VStr v)) /\
  (forall v, shownPriority (onChange issue (EditPriority v) st) issue
             = Some (if String.eqb v "" then VNum 0 else Number v)).
Proof.
  intros H.
  unfold shownTitle, shownDescription, shownStatus, shownAssigneeId,
    shownPriority.
  repeat split; intros v; rewrite onChange_eq; simpl editField.
  - rewrite edited_handleFieldChange by done. by rewrite lookup_insert_eq.
  - rewrite edited_handleFieldChange by done. by rewrite lookup_insert_eq.
  - rewrite edited_handleFieldChange by done. by rewrite lookup_insert_eq.
  - intros Hv. apply String.eqb_neq in Hv.
    assert (Ha : editArgument (EditAssignee v) = Some v)
      by (simpl; by rewrite Hv).
    rewrite Ha, edited_handleFieldChange by done.
    by rewrite lookup_insert_eq.
  - rewrite edited_handleFieldChange by done.
    rewrite lookup_insert_eq. unfold storedValue. simpl.
    destruct (String.eqb v ""); simpl; [done|].
    unfold Number. by destruct (digits v 0).
Qed.

Lemma onChange_shown_witness :
  isSaving initialState = false /\
  shownTitle (onChange issue1 (EditTitle "") initialState) issue1
  = Some (VStr "") /\
  shownPriority (onChange issue1 (EditPriority "4") initialState) issue1
  = Some (VNum 4).
Proof.
  assert (H : isSaving initialState = false) by reflexivity.
  destruct (onChange_shown initialState issue1 H) as (Ht & _ & _ & _ & Hp).
  split; [exact H|]. split; [exact (Ht "") | exact (Hp "4")].
Defined.

(** An edit in one row leaves every row with another key as it was: same
    buffered overrides, same values shown in its five controls. *)
Theorem onChange_other_row st issue e issue' :
  rowKey issue' <> rowKey issue ->
  edited (onChange issue e st) issue' = edited st issue' /\
  shownTitle (onChange issue e st) issue' = shownTitle st issue' /\
  shownDescription (onChange issue e st) issue' = shownDescription st issue' /\
  shownAssigneeId (onChange issue e st) issue' = shownAssigneeId st issue' /\
  shownStatus (onChange issue e st) issue' = shownStatus st issue' /\
  shownPriority (onChange issue e st) issue' = shownPriority st issue'.
Proof.
  intros Hne.
  assert (He : edited (onChange issue e st) issue' = edited st issue').
  { rewrite onChange_eq. unfold edited.
    by rewrite handleFieldChange_other. }
  unfold shownTitle, shownDescription, shownStatus, shownAssigneeId,
    shownPriority. by rewrite He.
Qed.

Lemma onChange_other_row_witness :
  rowKey issue2 <> rowKey issue1 /\
  shownTitle (onChange issue1 (EditTitle "Crash") initialState) issue2
  = shownTitle initialState issue2.
Proof.
  assert (H : rowKey issue2 <> rowKey issue1) by discriminate.
  split; [exact H|].
  exact (proj1 (proj2 (onChange_other_row initialState issue1
                         (EditTitle "Crash") issue2 H))).
Defined.

(** *** Invariants of the buffer *)

Lemma handleFieldChange_cells (P : string -> value -> Prop) st k field v :
  P field (storedValue field v) ->
  (forall k' (f : gmap string value) field' x,
     editState st !! k' = Some f -> f !! field' = Some x -> P field' x) ->
  forall k' (f : gmap string value) field' x,
    editState (handleFieldChange st k field v) !! k' = Some f ->
    f !! field' = Some x -> P field' x.
Proof.
  intros Hv Hinv k' f field' x. unfold handleFieldChange.
  destruct (isSaving st); [apply Hinv|]. simpl.
  destruct (decide (k' = k)) as [->|Hne].
  - rewrite lookup_insert_eq. intros [= <-].
    destruct (decide (field' = field)) as [->|Hf].
    + rewrite lookup_insert_eq. by intros [= <-].
    + rewrite lookup_insert_ne by done.
      destruct (editState st !! k) as [f0|] eqn:E; simpl.
      * by apply (Hinv k f0).
      * by rewrite lookup_empty.
  - rewrite lookup_insert_ne by done. apply Hinv.
Qed.

Lemma storedValue_declaredType e :
  declaredType (editField e) (storedValue (editField e) (editArgument e)).
Proof.
  unfold declaredType. destruct e as [v|v|v|v|v]; simpl.
  - left. split; [tauto | by exists v].
  - left. split; [tauto | by exists v].
  - right. left. split; [done|]. unfold storedValue. simpl.
    destruct (String.eqb_spec v "") as [->|Hv]; simpl; [by left|].
    right. by exists v.
  - left. split; [tauto | by exists v].
  - right. right. split; [done|]. unfold storedValue. simpl.
    destruct (String.eqb v ""); simpl.
    + right. by exists 0%Z.
    + unfold Number. destruct (digits v 0) as [n|]; [|by left].
      right. by exists n.
Qed.

(** Whatever the user does, each cell of the buffer holds the kind of
    value its field is declared with: a string under title, description
    and status, a non-empty string or [null] under assigneeId, a number
    under priority; and no other field name occurs. *)
Theorem reachable_declaredType issues st :
  reachable issues st ->
  forall k (f : gmap string value) field v,
    editState st !! k = Some f -> f !! field = Some v -> declaredType field v.
Proof.
  revert st.
  apply (rtc_ind_r (fun st => forall k (f : gmap string value) field v,
                      editState st !! k = Some f -> f !! field = Some v ->
                      declaredType field v)).
  - intros k f field v Hk. simpl in Hk. by rewrite lookup_empty in Hk.
  - intros st st' _ Hstep IH. destruct Hstep as [st issue e Hin|st Hen|st o Hs].
    + rewrite onChange_eq.
      apply handleFieldChange_cells; [apply storedValue_declaredType | exact IH].
    + rewrite handleSave_begin_eq. by destruct (changesOf (editState st)).
    + destruct o; [|exact IH]. intros k f field v Hk. simpl in Hk.
      by rewrite lookup_empty in Hk.
Qed.

Lemma reachable_declaredType_witness :
  let st := onChange issue1 (EditAssignee "") initialState in
  reachable [issue1] st /\
  editState st !! "LIN-1" = Some {[ "assigneeId" := VNull ]} /\
  declaredType "assigneeId" VNull.
Proof.
  intros st.
  assert (Hr : reachable [issue1] st).
  { eapply rtc_l; [apply (step_edit _ _ issue1 (EditAssignee "")); simpl; tauto|].
    apply rtc_refl. }
  assert (Hk : editState st !! "LIN-1" = Some {[ "assigneeId" := VNull ]})
    by (vm_compute; reflexivity).
  split; [exact Hr|]. split; [exact Hk|].
  apply (reachable_declaredType [issue1] st Hr "LIN-1" _ "assigneeId" VNull Hk).
  vm_compute; reflexivity.
Defined.

Lemma reachable_fields_nonempty issues st :
  reachable issues st ->
  forall k (f : gmap string value), editState st !! k = Some f -> f <> ∅.
Proof.
  revert st.
  apply (rtc_ind_r (fun st => forall k (f : gmap string value),
                      editState st !! k = Some f -> f <> ∅)).
  - intros k f Hk. simpl in Hk. by rewrite lookup_empty in Hk.
  - intros st st' _ Hstep IH. destruct Hstep as [st issue e Hin|st Hen|st o Hs].
    + rewrite onChange_eq. unfold handleFieldChange.
      destruct (isSaving st); [exact IH|]. simpl. intros k f.
      destruct (decide (k = rowKey issue)) as [->|Hne].
      * rewrite lookup_insert_eq. intros [= <-]. apply insert_non_empty.
      * rewrite lookup_insert_ne by done. apply IH.
    + rewrite handleSave_begin_eq. by destruct (changesOf (editState st)).
    + destruct o; [|exact IH]. intros k f Hk. simpl in Hk.
      by rewrite lookup_empty in Hk.
Qed.

(** Whenever the Save button is enabled, a click on it does invoke
    [onSave], and with one change for every row that has buffered
    overrides: no entry is filtered out, none is empty. *)
Theorem save_sends_every_entry issues st :
  reachable issues st ->
  saveDisabled st = false ->
  handleSave_begin st = ([SetIsSaving true], Some (map_to_list (editState st))) /\
  length (map_to_list (editState st)) = size (editState st) /\
  (forall c, In c (map_to_list (editState st)) -> c.2 <> ∅).
Proof.
  intros Hr Hen. pose proof (reachable_fields_nonempty issues st Hr) as Hne.
  assert (Hall : changesOf (editState st) = map_to_list (editState st)).
  { unfold changesOf. apply forallb_filter_id, forallb_forall.
    intros [k f] Hin. apply list_elem_of_In, elem_of_map_to_list in Hin.
    simpl. rewrite Hin. simpl. apply Z.ltb_lt.
    pose proof (Hne k f Hin) as Hf. apply map_size_non_empty_iff in Hf. lia. }
  unfold saveDisabled in Hen. apply orb_false_iff in Hen as [Hsz _].
  apply Z.eqb_neq in Hsz.
  split; [|split].
  - rewrite handleSave_begin_eq, Hall.
    destruct (map_to_list (editState st)) eqn:E; [|done].
    apply map_to_list_empty_iff in E. rewrite E, map_size_empty in Hsz. lia.
  - apply length_map_to_list.
  - intros [k f] Hin. apply list_elem_of_In, elem_of_map_to_list in Hin.
    by apply (Hne k).
Qed.

Lemma save_sends_every_entry_witness :
  let st := onChange issue1 (EditTitle "Crash") initialState in
  reachable [issue1] st /\
  saveDisabled st = false /\
  handleSave_begin st = ([SetIsSaving true], Some (map_to_list (editState st))).
Proof.
  intros st.
  assert (Hr : reachable [issue1] st).
  { eapply rtc_l; [apply (step_edit _ _ issue1 (EditTitle "Crash")); simpl; tauto|].
    apply rtc_refl. }
  assert (Hen : saveDisabled st = false) by (vm_compute; reflexivity).
  split; [exact Hr|]. split; [exact Hen|].
  exact (proj1 (save_sends_every_entry [issue1] st Hr Hen)).
Defined.

(** Once a save has succeeded, every control of every row shows the value
    of the [issues] prop again, the Save button is disabled, and a further
    [handleSave] would neither call a setter nor invoke [onSave]. *)
Theorem saved_shows_props st issue :
  let st' := run (handleSave_settle Resolved).1 st in
  shownTitle st' issue = Some (VStr (title issue)) /\
  shownDescription st' issue = Some (VStr (description issue)) /\
  shownAssigneeId st' issue = Some (VStr (default "" (assigneeId issue))) /\
  shownStatus st' issue = Some (VStr (status issue)) /\
  shownPriority st' issue = Some (VNum (priority issue)) /\
  saveDisabled st' = true /\
  handleSave_begin st' = ([], None).
Proof.
  simpl.
  unfold shownTitle, shownDescription, shownStatus, shownAssigneeId,
    shownPriority, edited, saveDisabled, handleSave_begin, changesOf. simpl.
  rewrite !lookup_empty. simpl. rewrite !lookup_empty. simpl.
  rewrite map_size_empty, map_to_list_empty. simpl.
  repeat split; by destruct (assigneeId issue).
Qed.

(** *** The buffer across re-renders with another [issues] prop *)

(** C5, after an edit of the row of [issue1] and a re-render with
    [[issue2]] as [issues]: the buffer still has the key ["LIN-1"], which is
    the key of no issue of the current prop, the Save button is enabled and
    a click on it hands that key to [onSave]. *)
Lemma stale_key_after_new_issues :
  let st := onChange issue1 (EditTitle "Crash") initialState in
  mounted [[issue2]; [issue1]] st /\
  is_Some (editState st !! "LIN-1") /\
  (forall issue, In issue [issue2] -> rowKey issue <> "LIN-1") /\
  saveDisabled st = false /\
  (handleSave_begin st).2 = Some [("LIN-1", {[ "title" := VStr "Crash" ]})].
Proof.
  intros st. split.
  - apply mounted_props.
    apply (mounted_edit [issue1] [] initialState issue1 (EditTitle "Crash"));
      [apply mounted_first | simpl; tauto].
  - split; [vm_compute; by eexists|]. split.
    + intros issue [<-|[]]. discriminate.
    + split; vm_compute; reflexivity.
Qed.

(** C5 (amended): after every sequence of edits in rendered rows, saves,
    their settling and re-renders with another [issues] prop, starting from
    the empty buffer, every key of the buffer is the key
    ([identifier ?? id]) of an issue of one of the props supplied so far;
    when the prop has not changed since the table was mounted, that is the
    currently supplied one. *)
Theorem editState_keys_supplied supplied st :
  mounted supplied st ->
  forall k, is_Some (editState st !! k) ->
    (exists issues issue,
       In issues supplied /\ In issue issues /\ rowKey issue = k) /\
    (forall issues, supplied = [issues] ->
                    exists issue, In issue issues /\ rowKey issue = k).
Proof.
  intros Hm.
  assert (Hall : forall k, is_Some (editState st !! k) ->
                 exists issues issue,
                   In issues supplied /\ In issue issues /\ rowKey issue = k).
  { induction Hm as [issues|issues supplied st issue e Hm IH Hin
                    |supplied st Hm IH Hen|supplied st o Hm IH Hs
                    |issues' supplied st Hm IH]; intros k Hk.
    - destruct Hk as [f Hk]. simpl in Hk. by rewrite lookup_empty in Hk.
    - destruct (decide (k = rowKey issue)) as [->|Hne].
      + exists issues, issue. simpl. tauto.
      + rewrite onChange_eq, handleFieldChange_other in Hk by done.
        by apply IH.
    - apply IH. revert Hk. rewrite handleSave_begin_eq.
      by destruct (changesOf (editState st)).
    - destruct o; [|by apply IH].
      destruct Hk as [f Hk]. simpl in Hk. by rewrite lookup_empty in Hk.
    - destruct (IH k Hk) as (issues & issue & H1 & H2 & H3).
      exists issues, issue. simpl. tauto. }
  intros k Hk. split; [by apply Hall|].
  intros issues ->. destruct (Hall k Hk) as (issues' & issue & [<-|[]] & H2 & H3).
  by exists issue.
Qed.

Lemma editState_keys_supplied_witness :
  let st := onChange issue1 (EditTitle "Crash") initialState in
  mounted [[issue2]; [issue1]] st /\
  is_Some (editState st !! "LIN-1") /\
  exists issues issue,
    In issues [[issue2]; [issue1]] /\ In issue issues /\ rowKey issue = "LIN-1".
Proof.
  intros st.
  assert (Hm : mounted [[issue2]; [issue1]] st).
  { apply mounted_props.
    apply (mounted_edit [issue1] [] initialState issue1 (EditTitle "Crash"));
      [apply mounted_first | simpl; tauto]. }
  assert (Hk : is_Some (editState st !! "LIN-1")) by (vm_compute; by eexists).
  split; [exact Hm|]. split; [exact Hk|].
  exact (proj1 (editState_keys_supplied _ st Hm "LIN-1" Hk)).
Defined.

End IssueTableMore.

(** ** The save wrapper: the message it sends *)

Module TamboSaveFacts.
Import IssueTable IssueTableExt TamboSave.

Example message_two_issues :
  handleSave [ ("LIN-1", [("title", VStr "Crash"); ("priority", VNum 1)]);
               ("LIN-2", [("assigneeId", VNull)]) ]
  = "## Linear Issue Updates" ++ nl ++ nl
    ++ "Please update the following 2 issues in Linear:" ++ nl ++ nl
    ++ "### Issue LIN-1" ++ nl ++ nl
    ++ "- **Title**: Crash" ++ nl
    ++ "- **Priority**: Urgent" ++ nl
    ++ nl
    ++ "### Issue LIN-2" ++ nl ++ nl
    ++ "- **AssigneeId**: Unassigned" ++ nl.
Proof. vm_compute. reflexivity. Qed.

Lemma string_app_cons x (a b : string) : String x a ++ b = String x (a ++ b).
Proof. reflexivity. Qed.

Lemma string_app_assoc (a b c : string) : (a ++ b) ++ c = a ++ b ++ c.
Proof.
  induction a as [|x a IH]; [reflexivity|].
  rewrite !string_app_cons. by f_equal.
Qed.

Lemma string_app_nil_r (a : string) : a ++ "" = a.
Proof.
  induction a as [|x a IH]; [reflexivity|].
  rewrite string_app_cons. by f_equal.
Qed.

Lemma concat_empty_cons (x : string) (xs : list string) :
  String.concat "" (x :: xs) = x ++ String.concat "" xs.
Proof. destruct xs; simpl; [by rewrite string_app_nil_r | done]. Qed.

Lemma fold_appendField fields content :
  fold_left appendField fields content
  = content ++ String.concat "" (List.map fieldLine fields).
Proof.
  revert content. induction fields as [|e fields IH]; intros content.
  - simpl. by rewrite string_app_nil_r.
  - cbn [fold_left List.map]. rewrite IH, concat_empty_cons.
    unfold appendField, fieldLine. by rewrite !string_app_assoc.
Qed.

Lemma forEachChange_eq rest index len content :
  len = (index + length rest)%nat ->
  forEachChange rest index len content
  = content ++ String.concat nl (List.map section rest).
Proof.
  revert index content. induction rest as [|c rest IH]; intros index content Hlen.
  - simpl. by rewrite string_app_nil_r.
  - cbn [forEachChange].
    assert (Hfields :
      (if (0 <? Z.of_nat (length c.2))%Z
       then fold_left appendField c.2 (content ++ "### Issue " ++ c.1 ++ nl ++ nl)
       else content ++ "### Issue " ++ c.1 ++ nl ++ nl)
      = content ++ section c).
    { unfold section. destruct c as [i fields]. simpl.
      destruct fields as [|e fields].
      - simpl. by rewrite !string_app_nil_r.
      - replace (0 <? Z.of_nat (length (e :: fields)))%Z with true
          by (symmetry; apply Z.ltb_lt; simpl; lia).
        rewrite fold_appendField. by rewrite !string_app_assoc. }
    rewrite Hfields. simpl length in Hlen.
    destruct rest as [|c' rest].
    + replace (Z.of_nat index <? Z.of_nat len - 1)%Z with false
        by (symmetry; apply Z.ltb_ge; simpl in Hlen; lia).
      simpl. done.
    + replace (Z.of_nat index <? Z.of_nat len - 1)%Z with true
        by (symmetry; apply Z.ltb_lt; simpl in Hlen; lia).
      rewrite IH by (simpl in *; lia).
      cbn [List.map String.concat]. by rewrite !string_app_assoc.
Qed.

Lemma handleSave_eq changes :
  handleSave changes
  = header (length changes) ++ String.concat nl (List.map section changes).
Proof.
  unfold handleSave. cbv zeta. rewrite forEachChange_eq by done.
  unfold header. by rewrite !string_app_assoc.
Qed.

(** The message handed to [sendThreadMessage] is the two header lines
    (with "issues" in the plural exactly when there is more than one change)
    followed by one section per change, in the order of the array, the
    sections separated by an empty line and the last one followed by
    nothing; a section is its heading and one line per changed field. *)
Theorem handleSave_message changes :
  handleSave changes
  = header (length changes) ++ String.concat nl (List.map section changes).
Proof. apply handleSave_eq. Qed.

(** Every option of the table's priority select is reported under the
    label the select shows for it. *)
Theorem priority_label_matches_option value label :
  In (value, label) priorityOptions ->
  displayValue "priority" (storedValue "priority" (Some value)) = label.
Proof.
  unfold priorityOptions. simpl.
  intros [H|[H|[H|[H|[H|[]]]]]]; inversion H; subst; reflexivity.
Qed.

Lemma priority_label_matches_option_witness :
  In ("1", "Urgent") priorityOptions /\
  displayValue "priority" (storedValue "priority" (Some "1")) = "Urgent".
Proof.
  assert (H : In ("1", "Urgent") priorityOptions) by (simpl; tauto).
  split; [exact H|]. exact (priority_label_matches_option "1" "Urgent" H).
Defined.



(** One edit in a fresh table followed by Save: [onSave] is invoked, and
    the message the wrapper sends for its argument is the header for one
    issue, the heading with the row's key and the one line of the edited
    field. *)
Theorem single_edit_message issue e :
  let st := onChange issue e initialState in
  exists changes,
    handleSave_begin st = ([SetIsSaving true], Some changes) /\
    handleSave (toEntries changes)
    = header 1 ++ "### Issue " ++ rowKey issue ++ nl ++ nl
      ++ fieldLine (editField e, storedValue (editField e) (editArgument e)).
Proof.
  intros st.
  assert (Hes : editState st
                = {[ rowKey issue :=
                       {[ editField e :=
                            storedValue (editField e) (editArgument e) ]} ]}).
  { unfold st. by destruct e. }
  assert (Hch : changesOf (editState st)
                = [ (rowKey issue,
                     {[ editField e :=
                          storedValue (editField e) (editArgument e) ]}) ]).
  { unfold changesOf. rewrite Hes, map_to_list_singleton. simpl.
    rewrite lookup_singleton_eq. simpl. by rewrite map_size_singleton. }
  eexists. split.
  - unfold handleSave_begin. cbv zeta. rewrite Hch. reflexivity.
  - rewrite handleSave_eq. unfold toEntries. simpl.
    by rewrite map_to_list_singleton.
Qed.

End TamboSaveFacts.

(** ** Diagram widget: successful renders, empty diagrams, unmounting *)

Module DiagramMore.
Import Diagram DiagramFacts.

(** A render started by the effect whose [mermaid.render] resolves stores
    the SVG in the cache, leaves the error unset and ends loading; the SVG
    is put on the surface if generation is complete or no error was set
    when the render was scheduled, and otherwise the surface stays as the
    start of the render left it, empty. *)
Theorem render_success_run c w svg :
  spawned (renderEffect c w) = Some c ->
  let w' := renderDiagram_settle c (Rendered svg) (after (renderEffect c w)) in
  lastValidSvg (state w') = Some svg /\
  error (state w') = None /\
  isLoading (state w') = false /\
  innerHTML w'
  = Some (if isComplete c || negb (truthy (error (seen c))) then svg else "").
Proof.
  intros Hs. apply renderEffect_spawned in Hs as (_ & -> & html & Hh).
  unfold renderDiagram_settle, renderDiagram_begin, setInnerHTML.
  simpl. rewrite Hh. simpl.
  destruct (isComplete c || negb (truthy (error (seen c)))); by simpl.
Qed.

Lemma render_success_run_witness :
  let w := {| state := {| isLoading := false; error := Some "Invalid diagram syntax: x";
                          isInitialized := true; lastValidSvg := None |};
              innerHTML := Some "" |} in
  let c := capture flowAB false w in
  spawned (renderEffect c w) = Some c /\
  lastValidSvg (state (renderDiagram_settle c (Rendered svgAB)
                         (after (renderEffect c w)))) = Some svgAB /\
  innerHTML (renderDiagram_settle c (Rendered svgAB) (after (renderEffect c w)))
  = Some "".
Proof.
  intros w c.
  assert (Hs : spawned (renderEffect c w) = Some c) by reflexivity.
  destruct (render_success_run c w svgAB Hs) as (H1 & _ & _ & H2).
  split; [exact Hs|]. split; [exact H1 | exact H2].
Defined.

Lemma runEffect_empty complete s :
  registered s = None -> runEffect "" complete s = s.
Proof.
  destruct s as [w p r]. simpl. intros ->.
  unfold runEffect, renderEffect. simpl.
  rewrite orb_true_r. simpl. by rewrite app_nil_r.
Qed.

(** With an empty [diagram] the effect starts no render and changes
    nothing, however often it runs: the widget stays as it was mounted,
    loading, with an empty surface and nothing pending. *)
Theorem empty_diagram_never_renders (completes : list bool) :
  let s := fold_left (fun s complete => runEffect "" complete s)
                     completes initialSystem in
  s = initialSystem /\
  pending s = [] /\
  isLoading (state (world s)) = true /\
  innerHTML (world s) = Some "".
Proof.
  assert (H : fold_left (fun s complete => runEffect "" complete s)
                        completes initialSystem = initialSystem).
  { induction completes as [|b completes IH]; [done|].
    simpl fold_left. by rewrite (runEffect_empty b initialSystem). }
  cbv zeta. rewrite H. by repeat split.
Qed.

(** Once the surface is gone ([diagramRef.current] is [null]), neither
    outcome of a pending render writes one, and the effect starts no new
    render and changes nothing. *)
Theorem unmounted_surface_untouched c r w :
  innerHTML w = None ->
  innerHTML (renderDiagram_settle c r w) = None /\
  spawned (renderEffect c w) = None /\
  after (renderEffect c w) = w.
Proof.
  intros H. unfold renderDiagram_settle, renderEffect, setInnerHTML.
  destruct r as [svg|err]; simpl; rewrite H; simpl.
  - destruct (isComplete c || negb (truthy (error (seen c)))); simpl;
      rewrite ?H, !orb_true_r; by repeat split.
  - destruct (isComplete c); simpl; rewrite ?H, !orb_true_r; by repeat split.
Qed.

Lemma unmounted_surface_untouched_witness :
  let w := {| state := {| isLoading := true; error := None;
                          isInitialized := true; lastValidSvg := None |};
              innerHTML := None |} in
  innerHTML w = None /\
  innerHTML (renderDiagram_settle (capture flowAB true w) (Rendered svgAB) w)
  = None.
Proof.
  intros w. split; [reflexivity|].
  exact (proj1 (unmounted_surface_untouched (capture flowAB true w)
                  (Rendered svgAB) w eq_refl)).
Defined.

Lemma renderEffect_spawned_guard c w c' :
  spawned (renderEffect c w) = Some c' ->
  c' = c /\ diagram c <> "" /\ isInitialized (seen c) = true.
Proof.
  unfold renderEffect.
  destruct (isInitialized (seen c)); simpl; [|done].
  destruct (String.eqb_spec (diagram c) ""); simpl; [done|].
  destruct (innerHTML w); simpl; [|done].
  by intros [= <-].
Qed.

Lemma sane_step s s' :
  DiagramExt.sysStep s s' -> DiagramExt.sane s -> DiagramExt.sane s'.
Proof.
  intros Hstep (Hreg & Hpend).
  destruct Hstep as [s d complete|s i r s' Hset|s].
  - unfold DiagramExt.sane, runEffect. rewrite Hreg.
    cbv zeta. rewrite renderEffect_no_cleanup.
    cbn [pending registered]. split; [done|].
    intros c Hin. apply in_app_or in Hin as [Hin|Hin]; [by apply Hpend|].
    destruct (spawned (renderEffect (capture d complete (world s)) (world s)))
      as [c'|] eqn:E; [|done].
    destruct Hin as [<-|[]].
    apply renderEffect_spawned_guard in E as (-> & Hd & Hi). done.
  - unfold settleAt in Hset.
    destruct (pending s !! i) as [c|] eqn:Ei; [|done].
    injection Hset as <-. unfold DiagramExt.sane.
    cbn [world pending registered]. split; [done|].
    intros c' Hin. apply Hpend.
    apply list_elem_of_In. apply list_elem_of_In in Hin.
    by apply list_elem_of_delete_inv with i.
  - by split.
Qed.

(** However many times the effect has run, whatever has settled, in
    whatever order, and whether or not the component has been unmounted
    meanwhile: no cleanup is registered, and every render still pending was
    scheduled for a non-empty diagram by an initialised widget. *)
Theorem widget_stays_sane s :
  rtc DiagramExt.sysStep initialSystem s -> DiagramExt.sane s.
Proof.
  revert s. apply (rtc_ind_r DiagramExt.sane).
  - unfold DiagramExt.sane. simpl. split; [done|]. by intros c [].
  - intros s s' _ Hstep IH. by apply sane_step with s.
Qed.

Lemma widget_stays_sane_witness :
  rtc DiagramExt.sysStep initialSystem twoInFlight /\
  DiagramExt.sane twoInFlight.
Proof.
  assert (H : rtc DiagramExt.sysStep initialSystem twoInFlight).
  { unfold twoInFlight.
    eapply rtc_l; [apply (DiagramExt.sys_effect _ flowAB false)|].
    eapply rtc_l; [apply (DiagramExt.sys_effect _ flowBC false)|].
    apply rtc_refl. }
  split; [exact H|]. exact (widget_stays_sane twoInFlight H).
Defined.

(** *** A failed render and the commits that follow *)

(** Whenever the widget holds an error that the previous commit did not
    see, as it does after the [catch] block of a failed render, the next
    commit finds the dependency [error] changed and runs the effect again:
    the error is unset, loading starts, the surface is emptied and one more
    render is pending. *)
Lemma commit_after_failure d complete (m : DiagramExt.Widget) e dp :
  registered (DiagramExt.sys m) = None ->
  isInitialized (state (world (DiagramExt.sys m))) = true ->
  d <> "" ->
  is_Some (innerHTML (world (DiagramExt.sys m))) ->
  error (state (world (DiagramExt.sys m))) = Some e ->
  DiagramExt.lastDeps m = Some dp -> dp.2 = None ->
  let m' := DiagramExt.commit d complete m in
  error (state (world (DiagramExt.sys m'))) = None /\
  isLoading (state (world (DiagramExt.sys m'))) = true /\
  innerHTML (world (DiagramExt.sys m')) = Some "" /\
  pending (DiagramExt.sys m')
  = (pending (DiagramExt.sys m)
       ++ [capture d complete (world (DiagramExt.sys m))])%list.
Proof.
  intros Hreg Hinit Hd [html Hh] He Hdp Hnone. unfold DiagramExt.commit.
  cbv zeta. rewrite decide_False.
  - cbn [DiagramExt.sys]. unfold runEffect. rewrite Hreg. cbv zeta.
    unfold renderEffect, capture. cbn [seen diagram]. rewrite Hinit, Hh.
    apply String.eqb_neq in Hd. rewrite Hd. simpl.
    unfold renderDiagram_begin, setInnerHTML. simpl. by rewrite Hh.
  - rewrite Hdp. intros [= ->]. unfold DiagramExt.deps in Hnone.
    simpl in Hnone. congruence.
Qed.

(** C3, on a diagram [mermaid.render] rejects.  With generation complete:
    the [catch] block sets the error and empties the surface, and for one
    render the error panel is shown; the commit that follows runs the
    effect again, which unsets the error and starts loading, so the panel
    is gone and a render is pending again, and the commit after that
    starts yet another one.  With generation in progress and the SVG of
    [flowAB] on the surface: the new run empties the surface, the [catch]
    block puts the cached SVG back, and the commit that follows empties the
    surface again and starts the next render. *)
Theorem failed_render_runs_again :
  let view := fun m : DiagramExt.Widget =>
                (world (DiagramExt.sys m), length (pending (DiagramExt.sys m))) in
  let failure := "Invalid diagram syntax: Parse error" in
  let w (loading : bool) (e cache : option string) (html : string) :=
    {| state := {| isLoading := loading; error := e;
                   isInitialized := true; lastValidSvg := cache |};
       innerHTML := Some html |} in
  let failedComplete :=
    DiagramExt.settle 0 (Threw DiagramExt.parseError)
      (DiagramExt.commit DiagramExt.flowBad true DiagramExt.mountWidget) in
  let failedStreaming :=
    DiagramExt.shownAB ≫= (fun m =>
      DiagramExt.settle 0 (Threw DiagramExt.parseError)
        (DiagramExt.commit DiagramExt.flowBad false m)) in
  view <$> failedComplete = Some (w false (Some failure) None "", 0%nat) /\
  (fun m => showsError true (world (DiagramExt.sys m))) <$> failedComplete
  = Some true /\
  view <$> (DiagramExt.commit DiagramExt.flowBad true <$> failedComplete)
  = Some (w true None None "", 1%nat) /\
  view <$> (DiagramExt.commit DiagramExt.flowBad true
              <$> (DiagramExt.commit DiagramExt.flowBad true <$> failedComplete))
  = Some (w true None None "", 2%nat) /\
  view <$> DiagramExt.shownAB
  = Some (w false None (Some svgAB) svgAB, 0%nat) /\
  view <$> (DiagramExt.commit DiagramExt.flowBad false <$> DiagramExt.shownAB)
  = Some (w true None (Some svgAB) "", 1%nat) /\
  view <$> failedStreaming
  = Some (w false (Some failure) (Some svgAB) svgAB, 0%nat) /\
  view <$> (DiagramExt.commit DiagramExt.flowBad false <$> failedStreaming)
  = Some (w true None (Some svgAB) "", 1%nat).
Proof. vm_compute. repeat (split; [reflexivity|]). reflexivity. Qed.

End DiagramMore.

(** ** Diagram payload schema: known keys only, stable results *)

Module ZodMore.
Import Zod ZodFacts.

(** The result of validation depends on the five members the schema names
    and on nothing else in the payload. *)
Theorem parse_known_members_only members members' :
  (forall k, In k ["diagram"; "title"; "theme"; "width"; "height"] ->
             get members k = get members' k) ->
  parse renderDiagramSchema (JObj members)
  = parse renderDiagramSchema (JObj members').
Proof.
  intros H. unfold renderDiagramSchema. rewrite !parse_object5.
  rewrite (H "diagram"), (H "title"), (H "theme"), (H "width"), (H "height");
    simpl; auto 10.
Qed.

Lemma parse_known_members_only_witness :
  parse renderDiagramSchema
    (JObj [("note", JNum 7); ("diagram", JStr "graph TD; A-->B;")])
  = parse renderDiagramSchema (JObj [("diagram", JStr "graph TD; A-->B;")]).
Proof.
  apply parse_known_members_only.
  intros k [<-|[<-|[<-|[<-|[<-|[]]]]]]; reflexivity.
Defined.

Lemma get_cons_ne k v rest key :
  k <> key -> get ((k, v) :: rest) key = get rest key.
Proof.
  intros Hne. cbn [get]. destruct (String.eqb_spec k key); [congruence | done].
Qed.

Lemma get_keep_ne k v out key :
  key <> k -> get (keep k v out) key = get out key.
Proof.
  intros Hne. unfold keep. destruct (isUndefined v); [done|]. simpl.
  destruct (String.eqb_spec k key); [congruence | done].
Qed.

(** What validation returns has no member besides diagram, title, theme,
    width and height: any other key of the payload is dropped. *)
Theorem parse_strips_unknown members o key :
  parse renderDiagramSchema (JObj members) = Some (JObj o) ->
  ~ In key ["diagram"; "title"; "theme"; "width"; "height"] ->
  get o key = JUndefined.
Proof.
  intros Hp Hk. destruct (parse_cases members) as [[_ Hp']|[_ Hp']];
    rewrite Hp' in Hp; [|done].
  injection Hp as <-. simpl in Hk.
  rewrite !get_keep_ne by (intros ->; tauto).
  rewrite !get_cons_ne by (intros <-; tauto). done.
Qed.

Lemma parse_strips_unknown_witness :
  let members := [("note", JNum 7); ("diagram", JStr "graph TD; A-->B;")] in
  exists o,
    parse renderDiagramSchema (JObj members) = Some (JObj o) /\
    get members "note" = JNum 7 /\
    get o "note" = JUndefined.
Proof.
  intros members. eexists. split; [reflexivity|]. split; [reflexivity|].
  apply (parse_strips_unknown members _ "note" eq_refl).
  simpl. intuition discriminate.
Defined.

Lemma orDefault_idem v d : orDefault (orDefault v d) d = orDefault v d.
Proof. by destruct v. Qed.

(** Validation is idempotent: what it returns is itself a payload the
    schema accepts, and validating it again returns it unchanged. *)
Theorem parse_idempotent members out :
  parse renderDiagramSchema (JObj members) = Some out ->
  parse renderDiagramSchema out = Some out.
Proof.
  intros Hp. destruct (parse_cases members) as [[Hwf Hp']|[_ Hp']];
    rewrite Hp' in Hp; [|done].
  injection Hp as <-.
  destruct Hwf as ((d & Hd) & Ht & Hth & Hw & Hh).
  unfold parsed. rewrite Hd.
  set (th := orDefault (get members "theme") "default").
  set (wd := orDefault (get members "width") "100%").
  set (ht := orDefault (get members "height") "400px").
  assert (Hth' : exists t, th = JStr t /\ In t themes).
  { unfold th. destruct Hth as [->|(t & -> & Hin)]; simpl; [|by eauto].
    exists "default". split; [done | simpl; tauto]. }
  assert (Hw' : exists s, wd = JStr s).
  { unfold wd. destruct Hw as [->|(s & ->)]; simpl; eauto. }
  assert (Hh' : exists s, ht = JStr s).
  { unfold ht. destruct Hh as [->|(s & ->)]; simpl; eauto. }
  destruct Hth' as (t & -> & Hin), Hw' as (sw & ->), Hh' as (sh & ->).
  destruct Ht as [->|(s & ->)]; simpl keep;
    match goal with
    | |- parse _ (JObj ?l) = _ =>
        destruct (parse_cases l) as [[_ ->]|[Hn _]];
        [reflexivity
        |exfalso; apply Hn; unfold wellFormed, optionalString, optionalTheme;
         simpl; repeat split; eauto]
    end.
Qed.

Lemma parse_idempotent_witness :
  let members := [("diagram", JStr "graph TD; A-->B;"); ("theme", JStr "dark")] in
  exists out,
    parse renderDiagramSchema (JObj members) = Some out /\
    parse renderDiagramSchema out = Some out.
Proof.
  intros members. eexists. split; [reflexivity|].
  exact (parse_idempotent members _ eq_refl).
Defined.

End ZodMore.
